(** * Board record storage (invokeai/app/services/board_record_storage.py)

    A shallow embedding of [SqliteBoardRecordStorage] and of the pydantic
    models next to it.  The Python methods are written in a small
    state-and-exception monad over a model of the sqlite3 connection: the
    [boards] table, the open transaction, the cursor's result set, the
    database clock and a schedule of I/O faults.  Every SQL statement of the
    source is one constructor of [Stmt] with its meaning in [run].

    A Python [str] is a sequence of characters, some of which UTF-8 cannot
    encode; a TEXT value of the database, and a text field of a record
    read from it, is kept as its UTF-8 bytes.

    Every public method of the source holds [self._lock] for its whole body,
    so calls never interleave; the lock itself is not modelled. *)

From Stdlib Require Import String Ascii List ZArith NArith Bool Lia.
From Stdlib Require Import DecimalString.
From Stdlib Require Import Sorting.Permutation Sorting.Sorted.
Import ListNotations.

Open Scope string_scope.
Open Scope list_scope.

(** ** Python values *)

(** One character of a [str]: a character with its UTF-8 encoding (one
    to four bytes), or a lone surrogate (U+D800 to U+DFFF), which UTF-8
    cannot encode. *)
Inductive pychar : Type :=
| Chr (utf8 : string)
| Surrogate (code : N).

Definition pystr : Type := list pychar.

(** [s.encode('utf-8')]; [None] stands for [UnicodeEncodeError]. *)
Fixpoint encode (s : pystr) : option string :=
  match s with
  | [] => Some EmptyString
  | Chr utf8 :: rest =>
      match encode rest with
      | Some bytes => Some (utf8 ++ bytes)%string
      | None => None
      end
  | Surrogate _ :: _ => None
  end.

(** The number of bytes of the character that starts with byte [lead]. *)
Definition utf8_length (lead : ascii) : nat :=
  let n := N_of_ascii lead in
  if (n <? 192)%N then 1 else if (n <? 224)%N then 2 else if (n <? 240)%N then 3 else 4.

(** The characters of UTF-8 text: [pending] holds the bytes read so far of
    the current character and [more] the number of its bytes still to
    come. *)
Fixpoint chars (pending : string) (more : nat) (bytes : string) : pystr :=
  match bytes with
  | EmptyString =>
      match pending with
      | EmptyString => []
      | _ => [Chr pending]
      end
  | String b rest =>
      match more with
      | S m => chars (pending ++ String b EmptyString) m rest
      | O =>
          match pending with
          | EmptyString => chars (String b EmptyString) (utf8_length b - 1) rest
          | _ => Chr pending :: chars (String b EmptyString) (utf8_length b - 1) rest
          end
      end
  end.

(** The [str] whose UTF-8 encoding is [text]: [text.decode('utf-8')]. *)
Definition str (text : string) : pystr := chars EmptyString 0 text.
Coercion str : string >-> pystr.

(** The Python objects that reach the database layer or a model
    constructor. *)
#[warnings="-register-all"]
Inductive pyobj : Type :=
| PyNone
| PyStr (s : pystr)
| PyInt (z : Z)
| PyTuple (items : list pyobj).

(** [sqlite3.Error] and the subclasses that occur here. *)
Inductive sqlite3_Error : Type :=
| ProgrammingError
| OperationalError
| InterfaceError.

(** Exceptions.  [raise X from e] keeps [e] as the cause of [X]; a bare
    [raise X] has no cause. *)
Inductive exn : Type :=
| Sqlite3Error (e : sqlite3_Error)
| OverflowError
| UnicodeEncodeError
| TypeError
| ValidationError
| BoardRecordNotFoundException (cause : option sqlite3_Error)
| BoardRecordSaveException (cause : option sqlite3_Error)
| BoardRecordDeleteException (cause : option sqlite3_Error).

Inductive outcome (A : Type) : Type :=
| Return (a : A)
| Raise (e : exn).
Arguments Return {A} a.
Arguments Raise {A} e.

(** ** The database clock and the two timestamp formats *)

(** A reading of the database clock, in UTC, as broken-down fields. *)
Record Instant : Type := mkInstant {
  year : N; month : N; day : N;
  hour : N; minute : N; second : N;
  millis : N
}.

Definition digit (d : N) : ascii := ascii_of_N (48 + d mod 10).

(** [decimal w n]: [n] in decimal on [w] digits, zero padded. *)
Fixpoint decimal (width : nat) (n : N) : string :=
  match width with
  | O => EmptyString
  | S w => String (digit (n / 10 ^ N.of_nat w)) (decimal w (n mod 10 ^ N.of_nat w))
  end.

(** [%Y-%m-%d %H:%M:%S] *)
Definition date_time (t : Instant) : string :=
  (decimal 4 (year t) ++ "-" ++ decimal 2 (month t) ++ "-" ++ decimal 2 (day t)
   ++ " " ++ decimal 2 (hour t) ++ ":" ++ decimal 2 (minute t) ++ ":"
   ++ decimal 2 (second t))%string.

(** SQL [current_timestamp]: whole seconds. *)
Definition current_timestamp (now : Instant) : string := date_time now.

(** SQL [STRFTIME('%Y-%m-%d %H:%M:%f', 'NOW')]: seconds with milliseconds. *)
Definition STRFTIME_f_NOW (now : Instant) : string :=
  (date_time now ++ "." ++ decimal 3 (millis now))%string.

(** Stored timestamps are TEXT and compare bytewise (BINARY collation). *)
Definition ts_le (a b : string) : bool := String.leb a b.
Definition ts_lt (a b : string) : bool := String.ltb a b.

(** ** Records *)

(** One row of the [boards] table, with the columns of [_create_tables]. *)
Module Row.
Record t : Type := mk {
  board_id : string;
  board_name : string;
  cover_image_name : option string;
  created_at : string;
  updated_at : string;
  deleted_at : option string
}.
End Row.

Module BoardRecord.
Record t : Type := mk {
  board_id : string;
  board_name : string;
  created_at : string;
  updated_at : string;
  cover_image_name : option string
}.
End BoardRecord.

(** [BoardChanges.t pystr] is the pydantic model, whose fields hold
    [Optional[str]]; [BoardChanges.t string] is a patch whose values are
    given as text. *)
Module BoardChanges.
Record t (S : Type) : Type := mk {
  board_name : option S;
  cover_image_name : option S
}.
Arguments mk {S} board_name cover_image_name.
Arguments board_name {S} t.
Arguments cover_image_name {S} t.

Definition of_text (changes : t string) : t pystr :=
  mk (option_map str (board_name changes))
     (option_map str (cover_image_name changes)).
End BoardChanges.

(** Modelled from the spec: [OffsetPaginatedResults] is declared in
    [image_record_storage], which is not part of the sources; the spec gives
    its shape as [{items, offset, limit, total}]. *)
Module OffsetPaginatedResults.
Record t : Type := mk {
  items : list BoardRecord.t;
  offset : Z;
  limit : Z;
  total : Z
}.
End OffsetPaginatedResults.

(** ** Model construction (pydantic) *)

Fixpoint kwargs_get (key : string) (kwargs : list (string * pyobj)) : option pyobj :=
  match kwargs with
  | [] => None
  | (k, v) :: rest => if (k =? key)%string then Some v else kwargs_get key rest
  end.

(** A field annotated [Optional[str]]: [None] is a valid value, a [str] is
    kept, an [int] is coerced to its decimal text, anything else is an
    error. *)
Definition validate_Optional_str (v : pyobj) : outcome (option pystr) :=
  match v with
  | PyNone => Return None
  | PyStr s => Return (Some s)
  | PyInt z => Return (Some (str (NilZero.string_of_int (Z.to_int z))))
  | PyTuple _ => Raise ValidationError
  end.

(** A field with no default whose annotation is [Optional[...]] is not
    required: when the keyword is absent the field is [None]. *)
Definition validate_optional_field (name : string) (kwargs : list (string * pyobj))
  : outcome (option pystr) :=
  match kwargs_get name kwargs with
  | None => Return None
  | Some v => validate_Optional_str v
  end.

Definition BoardChanges_fields : list string := ["board_name"; "cover_image_name"].

Definition is_field (k : string) : bool :=
  existsb (fun f => (f =? k)%string) BoardChanges_fields.

(** The constructor [BoardChanges] applied to keyword arguments, with
    [extra=Extra.forbid]. *)
Definition BoardChanges_init (kwargs : list (string * pyobj))
  : outcome (BoardChanges.t pystr) :=
  match validate_optional_field "board_name" kwargs,
        validate_optional_field "cover_image_name" kwargs with
  | Return board_name, Return cover_image_name =>
      if forallb (fun kv => is_field (fst kv)) kwargs
      then Return (BoardChanges.mk board_name cover_image_name)
      else Raise ValidationError
  | _, _ => Raise ValidationError
  end.

(** ** The sqlite3 connection *)

Inductive Stmt : Type :=
| DELETE_FROM_boards                  (* DELETE FROM boards WHERE board_id = ?; *)
| INSERT_OR_IGNORE_INTO_boards        (* INSERT OR IGNORE INTO boards (board_id, board_name) VALUES (?, ?); *)
| SELECT_FROM_boards_WHERE_board_id   (* SELECT * FROM boards WHERE board_id = ?; *)
| UPDATE_boards_SET_board_name        (* UPDATE boards SET board_name = ? WHERE board_id = ?; *)
| UPDATE_boards_SET_cover_image_name  (* UPDATE boards SET cover_image_name = ? WHERE board_id = ?; *)
| SELECT_FROM_boards_ORDER_BY_updated_at_DESC (* SELECT * FROM boards ORDER BY updated_at DESC LIMIT ? OFFSET ?; *)
| SELECT_COUNT_FROM_boards.           (* SELECT COUNT( * ) FROM boards WHERE 1=1; *)

(** Number of [?] placeholders. *)
Definition placeholders (sql : Stmt) : nat :=
  match sql with
  | DELETE_FROM_boards => 1
  | INSERT_OR_IGNORE_INTO_boards => 2
  | SELECT_FROM_boards_WHERE_board_id => 1
  | UPDATE_boards_SET_board_name => 2
  | UPDATE_boards_SET_cover_image_name => 2
  | SELECT_FROM_boards_ORDER_BY_updated_at_DESC => 2
  | SELECT_COUNT_FROM_boards => 0
  end.

Definition is_dml (sql : Stmt) : bool :=
  match sql with
  | DELETE_FROM_boards | INSERT_OR_IGNORE_INTO_boards
  | UPDATE_boards_SET_board_name | UPDATE_boards_SET_cover_image_name => true
  | _ => false
  end.

Inductive sqlval : Type :=
| VNull
| VText (s : string)
| VInteger (z : Z).

(** A row as the cursor yields it. *)
Inductive sqlrow : Type :=
| BoardsRow (r : Row.t)
| CountRow (n : Z).

Record Conn : Type := mkConn {
  boards : list Row.t;            (* the table, in rowid order *)
  journal : option (list Row.t);  (* the table at BEGIN, while a transaction is open *)
  cursor : list sqlrow;           (* rows not yet fetched *)
  clock : Instant;                (* the database's 'NOW' *)
  faults : list bool;             (* whether each coming database call hits an I/O fault *)
  executed : list Stmt            (* statements stepped so far, latest first *)
}.

Definition set_boards (b : list Row.t) (c : Conn) : Conn :=
  mkConn b (journal c) (cursor c) (clock c) (faults c) (executed c).
Definition set_journal (j : option (list Row.t)) (c : Conn) : Conn :=
  mkConn (boards c) j (cursor c) (clock c) (faults c) (executed c).
Definition set_cursor (rows : list sqlrow) (c : Conn) : Conn :=
  mkConn (boards c) (journal c) rows (clock c) (faults c) (executed c).
Definition set_clock (now : Instant) (c : Conn) : Conn :=
  mkConn (boards c) (journal c) (cursor c) now (faults c) (executed c).
Definition set_faults (f : list bool) (c : Conn) : Conn :=
  mkConn (boards c) (journal c) (cursor c) (clock c) f (executed c).
Definition log (sql : Stmt) (c : Conn) : Conn :=
  mkConn (boards c) (journal c) (cursor c) (clock c) (faults c) (sql :: executed c).

(** *** The monad of the Python code *)

Definition M (A : Type) : Type := Conn -> outcome A * Conn.

Definition ret {A} (a : A) : M A := fun c => (Return a, c).
Definition raise {A} (e : exn) : M A := fun c => (Raise e, c).
Definition bind {A B} (m : M A) (k : A -> M B) : M B :=
  fun c => match m c with
           | (Return a, c') => k a c'
           | (Raise e, c') => (Raise e, c')
           end.

Notation "x <- m ;; k" := (bind m (fun x => k))
  (at level 61, m at next level, right associativity).
Notation "m ;; k" := (bind m (fun _ => k))
  (at level 61, right associativity).

(** [try: body except sqlite3.Error as e: handler e]. *)
Definition try_except_sqlite3_Error {A} (body : M A) (handler : sqlite3_Error -> M A) : M A :=
  fun c => match body c with
           | (Raise (Sqlite3Error e), c') => handler e c'
           | r => r
           end.

Definition lift {A} (o : outcome A) : M A := fun c => (o, c).

Fixpoint mapM {A B} (f : A -> M B) (l : list A) : M (list B) :=
  match l with
  | [] => ret []
  | x :: rest => y <- f x ;; ys <- mapM f rest ;; ret (y :: ys)
  end.

(** *** Parameter binding *)

(** [execute(sql, parameters)] takes a sequence.  A tuple gives its items; a
    [str] is a sequence too, of its characters as one-character strings. *)
Definition sequence_items (parameters : pyobj) : option (list pyobj) :=
  match parameters with
  | PyTuple items => Some items
  | PyStr s => Some (map (fun ch => PyStr [ch]) s)
  | PyNone | PyInt _ => None
  end.

(** The range of SQLite's INTEGER. *)
Definition int64 (z : Z) : bool := ((- 2 ^ 63 <=? z) && (z <? 2 ^ 63))%Z.
Arguments int64 : simpl never.

(** A [str] is bound as its UTF-8 encoding and raises [UnicodeEncodeError]
    when it has none; an [int] outside SQLite's 64-bit INTEGER raises
    [OverflowError].  Neither is an [sqlite3.Error]. *)
Definition bind_parameter (v : pyobj) : outcome sqlval :=
  match v with
  | PyNone => Return VNull
  | PyStr s =>
      match encode s with
      | Some text => Return (VText text)
      | None => Raise UnicodeEncodeError
      end
  | PyInt z =>
      if int64 z then Return (VInteger z) else Raise OverflowError
  | PyTuple _ => Raise (Sqlite3Error InterfaceError)
  end.

Fixpoint bind_all (items : list pyobj) : outcome (list sqlval) :=
  match items with
  | [] => Return []
  | v :: rest =>
      match bind_parameter v with
      | Raise e => Raise e
      | Return x =>
          match bind_all rest with
          | Raise e => Raise e
          | Return xs => Return (x :: xs)
          end
      end
  end.

(** "Incorrect number of bindings supplied" is a [ProgrammingError]. *)
Definition bind_parameters (sql : Stmt) (parameters : pyobj) : outcome (list sqlval) :=
  match sequence_items parameters with
  | None => Raise (Sqlite3Error ProgrammingError)
  | Some items =>
      if Nat.eqb (List.length items) (placeholders sql) then bind_all items
      else Raise (Sqlite3Error ProgrammingError)
  end.

(** *** The statements *)

Definition set_board_name (s : string) (r : Row.t) : Row.t :=
  Row.mk (Row.board_id r) s (Row.cover_image_name r)
         (Row.created_at r) (Row.updated_at r) (Row.deleted_at r).
Definition set_cover_image_name (s : string) (r : Row.t) : Row.t :=
  Row.mk (Row.board_id r) (Row.board_name r) (Some s)
         (Row.created_at r) (Row.updated_at r) (Row.deleted_at r).
Definition set_updated_at (ts : string) (r : Row.t) : Row.t :=
  Row.mk (Row.board_id r) (Row.board_name r) (Row.cover_image_name r)
         (Row.created_at r) ts (Row.deleted_at r).

Definition has_board_id (board_id : string) (r : Row.t) : bool :=
  (Row.board_id r =? board_id)%string.

(** The trigger body,
    [UPDATE boards SET updated_at = current_timestamp WHERE board_id = old.board_id]. *)
Definition tg_boards_updated_at (now : Instant) (old : Row.t) (tbl : list Row.t) : list Row.t :=
  map (fun r => if has_board_id (Row.board_id old) r
                then set_updated_at (current_timestamp now) r else r) tbl.

(** [UPDATE boards SET ... WHERE board_id = ?]: the rows that match are
    written, then the AFTER UPDATE trigger runs once for each of them.  The
    trigger's own UPDATE does not fire it again (recursive triggers are
    off). *)
Definition UPDATE_boards (set : Row.t -> Row.t) (board_id : string) (now : Instant)
                         (tbl : list Row.t) : list Row.t :=
  let matched := filter (has_board_id board_id) tbl in
  let written := map (fun r => if has_board_id board_id r then set r else r) tbl in
  fold_left (fun t old => tg_boards_updated_at now old t) matched written.

(** [INSERT OR IGNORE INTO boards (board_id, board_name)]: a primary key
    already present makes the statement do nothing; the other columns take
    their defaults, both timestamps from one reading of the clock. *)
Definition INSERT_OR_IGNORE (board_id board_name : string) (now : Instant)
                            (tbl : list Row.t) : list Row.t :=
  if existsb (has_board_id board_id) tbl then tbl
  else tbl ++ [Row.mk board_id board_name None
                      (STRFTIME_f_NOW now) (STRFTIME_f_NOW now) None].

Definition DELETE (board_id : string) (tbl : list Row.t) : list Row.t :=
  filter (fun r => negb (has_board_id board_id r)) tbl.

Fixpoint insert_desc (r : Row.t) (sorted : list Row.t) : list Row.t :=
  match sorted with
  | [] => [r]
  | x :: rest =>
      if ts_le (Row.updated_at x) (Row.updated_at r) then r :: x :: rest
      else x :: insert_desc r rest
  end.

(** [ORDER BY updated_at DESC].  SQL leaves the order of rows with equal
    keys open; here they stay in rowid order. *)
Definition ORDER_BY_updated_at_DESC (tbl : list Row.t) : list Row.t :=
  fold_right insert_desc [] tbl.

(** [LIMIT ? OFFSET ?]: a negative limit means no limit, a negative offset
    means none. *)
Definition LIMIT_OFFSET {A} (limit offset : Z) (rows : list A) : list A :=
  let rest := skipn (Z.to_nat offset) rows in
  if (limit <? 0)%Z then rest else firstn (Z.to_nat limit) rest.

(** The effect of one statement on the table and the rows it yields.  The
    methods below bind text to the [board_id], [board_name] and
    [cover_image_name] placeholders and integers to LIMIT and OFFSET; other
    shapes do not occur and give [None]. *)
Definition run (sql : Stmt) (args : list sqlval) (now : Instant) (tbl : list Row.t)
  : option (list Row.t * list sqlrow) :=
  match sql, args with
  | DELETE_FROM_boards, [VText board_id] =>
      Some (DELETE board_id tbl, [])
  | INSERT_OR_IGNORE_INTO_boards, [VText board_id; VText board_name] =>
      Some (INSERT_OR_IGNORE board_id board_name now tbl, [])
  | SELECT_FROM_boards_WHERE_board_id, [VText board_id] =>
      Some (tbl, map BoardsRow (filter (has_board_id board_id) tbl))
  | UPDATE_boards_SET_board_name, [VText board_name; VText board_id] =>
      Some (UPDATE_boards (set_board_name board_name) board_id now tbl, [])
  | UPDATE_boards_SET_cover_image_name, [VText cover_image_name; VText board_id] =>
      Some (UPDATE_boards (set_cover_image_name cover_image_name) board_id now tbl, [])
  | SELECT_FROM_boards_ORDER_BY_updated_at_DESC, [VInteger limit; VInteger offset] =>
      Some (tbl, map BoardsRow (LIMIT_OFFSET limit offset (ORDER_BY_updated_at_DESC tbl)))
  | SELECT_COUNT_FROM_boards, [] =>
      Some (tbl, [CountRow (Z.of_nat (List.length tbl))])
  | _, _ => None
  end.

(** *** Connection and cursor calls *)

(** The sqlite3 module opens a transaction before a data-changing
    statement when none is open. *)
Definition begin (c : Conn) : Conn :=
  match journal c with
  | None => set_journal (Some (boards c)) c
  | Some _ => c
  end.

(** [self._cursor.execute(sql, parameters)]: the transaction is begun
    first, then the parameters are bound, then the statement is stepped. *)
Definition execute (sql : Stmt) (parameters : pyobj) : M unit :=
  fun c =>
    let c1 := if is_dml sql then begin c else c in
    match bind_parameters sql parameters with
    | Raise e => (Raise e, c1)
    | Return args =>
        match faults c1 with
        | true :: coming => (Raise (Sqlite3Error OperationalError), set_faults coming c1)
        | coming =>
            let c2 := set_faults (tl coming) c1 in
            match run sql args (clock c2) (boards c2) with
            | None => (Raise (Sqlite3Error InterfaceError), c2)
            | Some (tbl, rows) => (Return tt, log sql (set_cursor rows (set_boards tbl c2)))
            end
        end
    end.

(** [self._cursor.fetchone()] *)
Definition fetchone : M (option sqlrow) :=
  fun c =>
    match cursor c with
    | [] => (Return None, c)
    | row :: rest => (Return (Some row), set_cursor rest c)
    end.

(** [self._cursor.fetchall()] *)
Definition fetchall : M (list sqlrow) :=
  fun c => (Return (cursor c), set_cursor [] c).

(** [self._conn.commit()]: nothing to do when no transaction is open. *)
Definition commit : M unit :=
  fun c =>
    match journal c with
    | None => (Return tt, c)
    | Some _ =>
        match faults c with
        | true :: coming => (Raise (Sqlite3Error OperationalError), set_faults coming c)
        | coming => (Return tt, set_journal None (set_faults (tl coming) c))
        end
    end.

(** [self._conn.rollback()] *)
Definition rollback : M unit :=
  fun c =>
    match journal c with
    | None => (Return tt, c)
    | Some saved => (Return tt, set_journal None (set_boards saved c))
    end.

Definition BoardRecord_of_row (r : Row.t) : BoardRecord.t :=
  BoardRecord.mk (Row.board_id r) (Row.board_name r)
                 (Row.created_at r) (Row.updated_at r)
                 (Row.cover_image_name r).

(** [BoardRecord] built from the columns of a row; the extra column
    [deleted_at] is ignored. *)
Definition BoardRecord_init (row : sqlrow) : outcome BoardRecord.t :=
  match row with
  | BoardsRow r => Return (BoardRecord_of_row r)
  | CountRow _ => Raise ValidationError
  end.

(** [row[0]] of the COUNT row. *)
Definition first_column (row : option sqlrow) : outcome Z :=
  match row with
  | None => Raise TypeError
  | Some (CountRow n) => Return n
  | Some (BoardsRow _) => Raise ValidationError
  end.

(** ** The storage class *)

Module SqliteBoardRecordStorage.

(** [__init__]: connect to the database file and create the schema if it
    is not there.  [file] is the table as the file holds it (empty for a
    new file); the column defaults and the trigger that [_create_tables]
    declares are part of [run]. *)
Definition __init__ (file : list Row.t) (now : Instant) : Conn :=
  mkConn file None [] now [] [].

Definition delete (board_id : pystr) : M unit :=
  try_except_sqlite3_Error
    (execute DELETE_FROM_boards (PyStr board_id) ;;
     commit)
    (fun e => rollback ;; raise (BoardRecordDeleteException (Some e))).

(** [uuid4] is the value of [str(uuid.uuid4())] drawn by this call: 36
    ASCII characters, given as text. *)
Definition save (uuid4 : string) (board_name : pystr) : M BoardRecord.t :=
  try_except_sqlite3_Error
    (let board_id := str uuid4 in
     execute INSERT_OR_IGNORE_INTO_boards (PyTuple [PyStr board_id; PyStr board_name]) ;;
     commit ;;
     execute SELECT_FROM_boards_WHERE_board_id (PyTuple [PyStr board_id]) ;;
     result <- fetchone ;;
     match result with
     | None => raise TypeError
     | Some row => lift (BoardRecord_init row)
     end)
    (fun e => rollback ;; raise (BoardRecordSaveException (Some e))).

Definition get (board_id : pystr) : M BoardRecord.t :=
  result <- try_except_sqlite3_Error
              (execute SELECT_FROM_boards_WHERE_board_id (PyTuple [PyStr board_id]) ;;
               fetchone)
              (fun e => rollback ;; raise (BoardRecordNotFoundException (Some e))) ;;
  match result with
  | None => raise (BoardRecordNotFoundException None)
  | Some row => lift (BoardRecord_init row)
  end.

Definition update (board_id : pystr) (changes : BoardChanges.t pystr) : M unit :=
  try_except_sqlite3_Error
    (match BoardChanges.board_name changes with
     | Some board_name =>
         execute UPDATE_boards_SET_board_name (PyTuple [PyStr board_name; PyStr board_id])
     | None => ret tt
     end ;;
     match BoardChanges.cover_image_name changes with
     | Some cover_image_name =>
         execute UPDATE_boards_SET_cover_image_name
                 (PyTuple [PyStr cover_image_name; PyStr board_id])
     | None => ret tt
     end ;;
     commit)
    (fun e => rollback ;; raise (BoardRecordSaveException (Some e))).

Definition get_many (offset limit : Z) : M OffsetPaginatedResults.t :=
  try_except_sqlite3_Error
    (execute SELECT_FROM_boards_ORDER_BY_updated_at_DESC (PyTuple [PyInt limit; PyInt offset]) ;;
     result <- fetchall ;;
     boards <- mapM (fun row => lift (BoardRecord_init row)) result ;;
     execute SELECT_COUNT_FROM_boards (PyTuple []) ;;
     row <- fetchone ;;
     count <- lift (first_column row) ;;
     ret (OffsetPaginatedResults.mk boards offset limit count))
    (fun e => rollback ;; raise (Sqlite3Error e)).

End SqliteBoardRecordStorage.

(** ** The methods on text

    The methods called with [str] arguments that are text, each given by
    its UTF-8 bytes. *)

Definition __init__ (file : list Row.t) (now : Instant) : Conn :=
  SqliteBoardRecordStorage.__init__ file now.

Definition delete (board_id : string) : M unit :=
  SqliteBoardRecordStorage.delete (str board_id).

Definition save (uuid4 board_name : string) : M BoardRecord.t :=
  SqliteBoardRecordStorage.save uuid4 (str board_name).

Definition get (board_id : string) : M BoardRecord.t :=
  SqliteBoardRecordStorage.get (str board_id).

Definition update (board_id : string) (changes : BoardChanges.t string) : M unit :=
  SqliteBoardRecordStorage.update (str board_id) (BoardChanges.of_text changes).

Definition get_many (offset limit : Z) : M OffsetPaginatedResults.t :=
  SqliteBoardRecordStorage.get_many offset limit.

(** ** Reading the table *)

(** The row a primary-key lookup finds. *)
Definition lookup (board_id : string) (tbl : list Row.t) : option Row.t :=
  find (has_board_id board_id) tbl.

(** The row written by the trigger. *)
Definition touched (now : Instant) (r : Row.t) : Row.t :=
  set_updated_at (current_timestamp now) r.

(** One call of [update], as statements on the table. *)
Definition apply_changes (board_id : string) (changes : BoardChanges.t string) (now : Instant)
                         (tbl : list Row.t) : list Row.t :=
  let tbl1 := match BoardChanges.board_name changes with
              | Some s => UPDATE_boards (set_board_name s) board_id now tbl
              | None => tbl
              end in
  match BoardChanges.cover_image_name changes with
  | Some s => UPDATE_boards (set_cover_image_name s) board_id now tbl1
  | None => tbl1
  end.

(** No database call of the coming method hits a fault. *)
Definition no_fault (c : Conn) : Prop := faults c = [].

(** No transaction is open: the state between two calls. *)
Definition idle (c : Conn) : Prop := journal c = None.

(** The environment between two calls: time passes and faults are
    scheduled for the next call. *)
Definition at_time (now : Instant) (io : list bool) (c : Conn) : Conn :=
  set_faults io (set_clock now c).

Definition ids (tbl : list Row.t) : list string := map Row.board_id tbl.

(** The row exists and has a cover image. *)
Definition has_cover (row : option Row.t) : Prop :=
  exists r s, row = Some r /\ Row.cover_image_name r = Some s.

Definition is_not_found (e : exn) : bool :=
  match e with
  | BoardRecordNotFoundException _ => true
  | _ => false
  end.

(** Rows in descending order of [updated_at]. *)
Definition descending (a b : Row.t) : Prop :=
  ts_le (Row.updated_at b) (Row.updated_at a) = true.

(** *** Histories of calls *)

Inductive call : Type :=
| Env (now : Instant) (io : list bool)
| Save (uuid4 board_name : string)
| Get (board_id : string)
| Update (board_id : string) (changes : BoardChanges.t string)
| Delete (board_id : string)
| GetMany (offset limit : Z).

Definition perform (k : call) (c : Conn) : Conn :=
  match k with
  | Env now io => at_time now io c
  | Save uuid4 board_name => snd (save uuid4 board_name c)
  | Get board_id => snd (get board_id c)
  | Update board_id changes => snd (update board_id changes c)
  | Delete board_id => snd (delete board_id c)
  | GetMany offset limit => snd (get_many offset limit c)
  end.

Definition history (calls : list call) (c : Conn) : Conn :=
  fold_left (fun c0 k => perform k c0) calls c.

(** The identifiers [uuid.uuid4()] has given out during a history. *)
Fixpoint generated (calls : list call) : list string :=
  match calls with
  | [] => []
  | Save uuid4 _ :: rest => uuid4 :: generated rest
  | _ :: rest => generated rest
  end.

(** A run of [update] calls, each at its own time and fault schedule. *)
Fixpoint updates (calls : list (Instant * list bool * string * BoardChanges.t string))
                 (c : Conn) : Conn :=
  match calls with
  | [] => c
  | (now, io, board_id, changes) :: rest =>
      updates rest (snd (update board_id changes (at_time now io c)))
  end.

(** *** Clock readings in order *)

Definition valid_instant (t : Instant) : bool :=
  ((year t <? 10000) && (1 <=? month t) && (month t <=? 12)
   && (1 <=? day t) && (day t <=? 31) && (hour t <? 24)
   && (minute t <? 60) && (second t <? 60) && (millis t <? 1000))%N.

(** The whole second a reading falls in, as the number YYYYMMDDHHMMSS;
    on valid readings its order is the order of time. *)
Definition whole_second (t : Instant) : N :=
  (((((year t * 100 + month t) * 100 + day t) * 100 + hour t) * 100
    + minute t) * 100 + second t)%N.

(** *** Sample data *)

Definition a_uuid : string := "3f2b8c1e-7a4d-4e9b-8f6a-1c2d3e4f5a6b".
Definition another_uuid : string := "9d0c7b6a-5e4f-4a3b-9c2d-1e0f9a8b7c6d".

Definition noon_0_500 : Instant := mkInstant 2023 6 14 12 0 0 500.
Definition noon_0_700 : Instant := mkInstant 2023 6 14 12 0 0 700.
Definition noon_5_200 : Instant := mkInstant 2023 6 14 12 0 5 200.
Definition noon_5_800 : Instant := mkInstant 2023 6 14 12 0 5 800.

(** A new database file, then one board saved. *)
Definition new_store : Conn := __init__ [] noon_0_500.
Definition one_board : Conn := snd (save a_uuid "Landscapes" new_store).

(** U+00E9, one character of two bytes, and a [str] that is a lone
    surrogate, U+D800. *)
Definition e_acute : pychar := Chr (String "195" (String "169" EmptyString)).
Definition lone_surrogate : pystr := [Surrogate 55296].

Definition sample_uuid (n : N) : string :=
  ("00000000-0000-4000-8000-0000000000" ++ decimal 2 n)%string.

(** [n] boards saved a minute apart. *)
Fixpoint save_boards (n : nat) : list call :=
  match n with
  | O => []
  | S k =>
      save_boards k ++
      [Env (mkInstant 2023 6 14 12 (N.of_nat n) 0 0) [];
       Save (sample_uuid (N.of_nat n)) ("Board " ++ decimal 2 (N.of_nat n))]
  end.

Definition fifteen_boards : Conn := history (save_boards 15) new_store.

(** One row after the statements of one [update] that matched it. *)
Definition patched (changes : BoardChanges.t string) (now : Instant) (r : Row.t) : Row.t :=
  let r1 := match BoardChanges.board_name changes with
            | Some s => touched now (set_board_name s r)
            | None => r
            end in
  match BoardChanges.cover_image_name changes with
  | Some s => touched now (set_cover_image_name s r1)
  | None => r1
  end.

(** The columns no statement of this class ever rewrites. *)
Definition identity (r : Row.t) : string * string :=
  (Row.board_id r, Row.created_at r).

(** The patch as text, when every value in it can be encoded. *)
Definition encode_changes (changes : BoardChanges.t pystr)
  : option (BoardChanges.t string) :=
  match BoardChanges.board_name changes, BoardChanges.cover_image_name changes with
  | None, None => Some (BoardChanges.mk None None)
  | Some n, None =>
      match encode n with
      | Some n' => Some (BoardChanges.mk (Some n') None)
      | None => None
      end
  | None, Some v =>
      match encode v with
      | Some v' => Some (BoardChanges.mk None (Some v'))
      | None => None
      end
  | Some n, Some v =>
      match encode n, encode v with
      | Some n', Some v' => Some (BoardChanges.mk (Some n') (Some v'))
      | _, _ => None
      end
  end.

Definition is_empty_patch {S} (changes : BoardChanges.t S) : bool :=
  match BoardChanges.board_name changes, BoardChanges.cover_image_name changes with
  | None, None => true
  | _, _ => false
  end.

(** ** Lists *)

Section ListFacts.
Context {A B : Type}.

Lemma hd_error_filter (f : A -> bool) (l : list A) :
  hd_error (filter f l) = find f l.
Proof.
  induction l as [|x l IH]; simpl; [reflexivity|].
  destruct (f x); simpl; auto.
Qed.

Lemma find_map_same (f : A -> bool) (g : A -> A) (l : list A) :
  (forall x, f (g x) = f x) ->
  find f (map g l) = option_map g (find f l).
Proof.
  intros Hfg. induction l as [|x l IH]; simpl; [reflexivity|].
  rewrite Hfg. destruct (f x); simpl; auto.
Qed.


Lemma find_none_existsb (f : A -> bool) (l : list A) :
  find f l = None -> existsb f l = false.
Proof.
  induction l as [|x l IH]; simpl; [reflexivity|].
  destruct (f x); [discriminate | auto].
Qed.

Lemma find_some_existsb (f : A -> bool) (l : list A) (x : A) :
  find f l = Some x -> existsb f l = true.
Proof.
  induction l as [|y l IH]; simpl; [discriminate|].
  destruct (f y); simpl; auto.
Qed.

Lemma find_app_none (f : A -> bool) (l l' : list A) :
  find f l = None -> find f (l ++ l') = find f l'.
Proof.
  induction l as [|x l IH]; simpl; [reflexivity|].
  destruct (f x); [discriminate | auto].
Qed.


Lemma firstn_then_next (n m : nat) (l : list A) :
  firstn n l ++ firstn m (skipn n l) = firstn (n + m) l.
Proof.
  revert l. induction n as [|n IH]; intros l; simpl; [reflexivity|].
  destruct l as [|x l]; simpl.
  - now rewrite firstn_nil.
  - now rewrite IH.
Qed.
End ListFacts.

(** ** The statements on the table *)

Lemma has_board_id_eq board_id r :
  has_board_id board_id r = true <-> Row.board_id r = board_id.
Proof. unfold has_board_id. apply String.eqb_eq. Qed.

Lemma trigger_rounds board_id now (matched tbl : list Row.t) :
  Forall (fun old => Row.board_id old = board_id) matched ->
  fold_left (fun t old => tg_boards_updated_at now old t) matched tbl =
  match matched with
  | [] => tbl
  | _ :: _ => map (fun r => if has_board_id board_id r then touched now r else r) tbl
  end.
Proof.
  intros Hall. revert tbl.
  induction Hall as [|old rest Hold Hrest IH]; intros tbl; simpl; [reflexivity|].
  rewrite IH. unfold tg_boards_updated_at. rewrite Hold. fold (touched now).
  destruct rest; [reflexivity|].
  rewrite map_map. apply map_ext. intros r.
  destruct (has_board_id board_id r) eqn:E; simpl; [|now rewrite E].
  unfold touched, set_updated_at, has_board_id in *. simpl. now rewrite E.
Qed.

(** An UPDATE writes the matching rows and stamps each with the trigger's
    [current_timestamp]; the other rows stay as they are. *)
Lemma UPDATE_boards_map set board_id now tbl :
  (forall r, Row.board_id (set r) = Row.board_id r) ->
  UPDATE_boards set board_id now tbl =
  map (fun r => if has_board_id board_id r then touched now (set r) else r) tbl.
Proof.
  intros Hset. unfold UPDATE_boards.
  rewrite (trigger_rounds board_id).
  - destruct (filter (has_board_id board_id) tbl) as [|m ms] eqn:Ef.
    + apply map_ext_in. intros r Hin.
      destruct (has_board_id board_id r) eqn:E; [|reflexivity].
      assert (In r (filter (has_board_id board_id) tbl)) as Hf
        by (apply filter_In; auto).
      rewrite Ef in Hf. destruct Hf.
    + rewrite map_map. apply map_ext. intros r.
      destruct (has_board_id board_id r) eqn:E; simpl; [|now rewrite E].
      unfold has_board_id in *. now rewrite Hset, E.
  - apply Forall_forall. intros r Hin. apply filter_In in Hin.
    now apply has_board_id_eq.
Qed.

Lemma lookup_UPDATE_boards set board_id now key tbl :
  (forall r, Row.board_id (set r) = Row.board_id r) ->
  lookup key (UPDATE_boards set board_id now tbl) =
  option_map (fun r => if has_board_id board_id r then touched now (set r) else r)
             (lookup key tbl).
Proof.
  intros Hset. rewrite UPDATE_boards_map by assumption.
  unfold lookup. apply find_map_same. intros r.
  destruct (has_board_id board_id r); [|reflexivity].
  unfold has_board_id, touched, set_updated_at. simpl. now rewrite Hset.
Qed.



Lemma lookup_INSERT_fresh board_id board_name now tbl :
  lookup board_id tbl = None ->
  lookup board_id (INSERT_OR_IGNORE board_id board_name now tbl) =
  Some (Row.mk board_id board_name None (STRFTIME_f_NOW now) (STRFTIME_f_NOW now) None).
Proof.
  intros Hnone. unfold INSERT_OR_IGNORE, lookup in *.
  rewrite (find_none_existsb _ _ Hnone), (find_app_none _ _ _ Hnone).
  simpl. unfold has_board_id. simpl. now rewrite String.eqb_refl.
Qed.

Lemma lookup_INSERT_existing board_id board_name now tbl r :
  lookup board_id tbl = Some r ->
  INSERT_OR_IGNORE board_id board_name now tbl = tbl.
Proof.
  intros Hsome. unfold INSERT_OR_IGNORE, lookup in *.
  now rewrite (find_some_existsb _ _ _ Hsome).
Qed.

(** ** The methods, call by call *)

(** *** Text as a [str] *)

Lemma append_assoc (a b c : string) : ((a ++ b) ++ c = a ++ (b ++ c))%string.
Proof. induction a as [|x a IH]; simpl; congruence. Qed.

Lemma append_empty (s : string) : (s ++ "")%string = s.
Proof. induction s as [|x s IH]; simpl; congruence. Qed.

Lemma encode_chars pending more bytes :
  encode (chars pending more bytes) = Some (pending ++ bytes)%string.
Proof.
  revert pending more. induction bytes as [|b rest IH]; intros pending more; simpl.
  - destruct pending; reflexivity.
  - destruct more as [|m].
    + destruct pending as [|p ps]; simpl; rewrite IH; reflexivity.
    + rewrite IH, append_assoc. reflexivity.
Qed.

(** Text has an encoding, itself: binding a [str] made from text never
    raises [UnicodeEncodeError]. *)
Lemma encode_str text : encode (str text) = Some text.
Proof. unfold str. now rewrite encode_chars. Qed.

Arguments str : simpl never.
Arguments encode : simpl never.

Ltac unfold_method :=
  cbv [delete save get update get_many
       SqliteBoardRecordStorage.delete SqliteBoardRecordStorage.save
       SqliteBoardRecordStorage.get SqliteBoardRecordStorage.update
       SqliteBoardRecordStorage.get_many
       try_except_sqlite3_Error bind execute
       fetchone fetchall commit rollback raise ret lift
       BoardChanges.of_text option_map
       BoardChanges.board_name BoardChanges.cover_image_name
       bind_parameters sequence_items bind_all bind_parameter placeholders
       Nat.eqb List.length List.map];
  rewrite ?encode_str; simpl.

(** Case analysis on what the fault schedule holds for the next call. *)
Ltac next_fault :=
  match goal with
  | |- context [match ?l with [] => _ | _ :: _ => _ end] =>
      is_var l; destruct l as [|[|] ?]; simpl
  end.

Lemma mapM_records (f : sqlrow -> M BoardRecord.t) rows c :
  (forall r c0, f (BoardsRow r) c0 = (Return (BoardRecord_of_row r), c0)) ->
  mapM f (map BoardsRow rows) c = (Return (map BoardRecord_of_row rows), c).
Proof.
  intros Hf. induction rows as [|r rows IH]; simpl; [reflexivity|].
  unfold bind. now rewrite Hf, IH.
Qed.

(** *** get *)

Lemma py_get_outcome (board_id : pystr) c :
  fst (SqliteBoardRecordStorage.get board_id c) =
  match encode board_id with
  | None => Raise UnicodeEncodeError
  | Some text =>
      match faults c with
      | true :: _ => Raise (BoardRecordNotFoundException (Some OperationalError))
      | _ => match lookup text (boards c) with
             | None => Raise (BoardRecordNotFoundException None)
             | Some r => Return (BoardRecord_of_row r)
             end
      end
  end.
Proof.
  unfold lookup. destruct (encode board_id) as [text|] eqn:E.
  - rewrite <- hd_error_filter.
    destruct c as [b j cu cl fs ex]. unfold_method. rewrite E. simpl.
    destruct fs as [|[|] fs]; simpl.
    + destruct (filter (has_board_id text) b); reflexivity.
    + destruct j; reflexivity.
    + destruct (filter (has_board_id text) b); reflexivity.
  - destruct c as [b j cu cl fs ex]. unfold_method. rewrite E. reflexivity.
Qed.

Lemma get_outcome board_id c :
  fst (get board_id c) =
  match faults c with
  | true :: _ => Raise (BoardRecordNotFoundException (Some OperationalError))
  | _ => match lookup board_id (boards c) with
         | None => Raise (BoardRecordNotFoundException None)
         | Some r => Return (BoardRecord_of_row r)
         end
  end.
Proof.
  unfold lookup. rewrite <- hd_error_filter.
  destruct c as [b j cu cl fs ex]. unfold_method. simpl.
  destruct fs as [|[|] fs]; simpl.
  - destruct (filter (has_board_id board_id) b); reflexivity.
  - destruct j; reflexivity.
  - destruct (filter (has_board_id board_id) b); reflexivity.
Qed.

Lemma get_frame board_id c :
  idle c ->
  let c' := snd (get board_id c) in
  idle c' /\ clock c' = clock c /\ boards c' = boards c.
Proof.
  unfold idle. intros Hidle.
  destruct c as [b j cu cl fs ex]. simpl in Hidle. subst j.
  unfold_method. simpl.
  destruct fs as [|[|] fs]; simpl; auto;
    destruct (filter (has_board_id board_id) b); simpl; auto.
Qed.

(** *** save *)

Lemma save_frame uuid4 board_name c :
  idle c ->
  let c' := snd (save uuid4 board_name c) in
  idle c' /\ clock c' = clock c /\
  (boards c' = boards c \/
   boards c' = INSERT_OR_IGNORE uuid4 board_name (clock c) (boards c)).
Proof.
  unfold idle. intros Hidle.
  destruct c as [b j cu cl fs ex]. simpl in Hidle. subst j.
  unfold_method. simpl.
  repeat next_fault; auto;
    destruct (filter (has_board_id uuid4) (INSERT_OR_IGNORE uuid4 board_name cl b));
    simpl; auto.
Qed.

Lemma save_ok uuid4 board_name c :
  no_fault c ->
  let tbl := INSERT_OR_IGNORE uuid4 board_name (clock c) (boards c) in
  fst (save uuid4 board_name c) =
    match lookup uuid4 tbl with
    | Some r => Return (BoardRecord_of_row r)
    | None => Raise TypeError
    end /\
  boards (snd (save uuid4 board_name c)) = tbl /\
  no_fault (snd (save uuid4 board_name c)).
Proof.
  unfold no_fault, lookup. intros Hio. simpl.
  rewrite <- hd_error_filter.
  destruct c as [b j cu cl fs ex]. simpl in Hio. subst fs.
  unfold_method. simpl.
  destruct j; simpl;
    destruct (filter (has_board_id uuid4) (INSERT_OR_IGNORE uuid4 board_name cl b));
    simpl; auto.
Qed.

(** *** update *)

Lemma update_frame board_id changes c :
  idle c ->
  let c' := snd (update board_id changes c) in
  idle c' /\ clock c' = clock c /\
  (boards c' = boards c \/
   boards c' = apply_changes board_id changes (clock c) (boards c)).
Proof.
  unfold idle. intros Hidle.
  destruct changes as [[n|] [v|]]; destruct c as [b j cu cl fs ex];
    simpl in Hidle; subst j; unfold_method; unfold apply_changes; simpl;
    repeat next_fault; auto.
Qed.

Lemma update_ok board_id changes c :
  no_fault c ->
  fst (update board_id changes c) = Return tt /\
  boards (snd (update board_id changes c)) =
    apply_changes board_id changes (clock c) (boards c) /\
  no_fault (snd (update board_id changes c)).
Proof.
  unfold no_fault. intros Hio.
  destruct changes as [[n|] [v|]]; destruct c as [b j cu cl fs ex];
    simpl in Hio; subst fs; unfold_method; unfold apply_changes; simpl;
    destruct j; simpl; auto.
Qed.

(** *** delete *)

Lemma delete_frame board_id c :
  idle c ->
  let c' := snd (delete board_id c) in
  idle c' /\ clock c' = clock c /\
  (boards c' = boards c \/ boards c' = DELETE board_id (boards c)).
Proof.
  unfold idle. intros Hidle.
  destruct c as [b j cu cl fs ex]. simpl in Hidle. subst j.
  pose proof (encode_str board_id) as He. unfold delete.
  destruct (str board_id) as [|ch [|ch' rest]]; unfold_method; auto.
  rewrite He. simpl. repeat next_fault; auto.
Qed.

(** *** get_many *)

Lemma get_many_frame offset limit c :
  idle c ->
  let c' := snd (get_many offset limit c) in
  idle c' /\ clock c' = clock c /\ boards c' = boards c.
Proof.
  unfold idle. intros Hidle.
  destruct c as [b j cu cl fs ex]. simpl in Hidle. subst j.
  unfold_method. unfold bind_parameters. simpl.
  destruct (int64 limit); simpl; auto.
  destruct (int64 offset); simpl; auto.
  destruct fs as [|[|] fs]; simpl; auto; rewrite mapM_records by reflexivity; simpl; auto;
    destruct fs as [|[|] fs]; simpl; auto.
Qed.

Lemma get_many_ok offset limit c :
  no_fault c ->
  int64 offset = true -> int64 limit = true ->
  exists c',
    get_many offset limit c =
    (Return (OffsetPaginatedResults.mk
               (map BoardRecord_of_row
                    (LIMIT_OFFSET limit offset (ORDER_BY_updated_at_DESC (boards c))))
               offset limit (Z.of_nat (List.length (boards c)))), c') /\
    boards c' = boards c /\ no_fault c' /\ journal c' = journal c.
Proof.
  unfold no_fault. intros Hio Hoff Hlim.
  destruct c as [b j cu cl fs ex]. simpl in Hio. subst fs.
  unfold_method. unfold bind_parameters. simpl.
  rewrite Hoff, Hlim. simpl.
  rewrite mapM_records by reflexivity. simpl.
  eexists. split; [reflexivity|]. simpl. auto.
Qed.

(** ** Identifiers in the table *)

Lemma lookup_none_iff board_id tbl :
  lookup board_id tbl = None <-> ~ In board_id (ids tbl).
Proof.
  unfold lookup, ids. induction tbl as [|r tbl IH]; simpl; [tauto|].
  destruct (has_board_id board_id r) eqn:E.
  - apply has_board_id_eq in E. split; [discriminate | tauto].
  - assert (Row.board_id r <> board_id) by
      (intros Heq; apply has_board_id_eq in Heq; congruence).
    tauto.
Qed.

Lemma ids_UPDATE_boards set board_id now tbl :
  (forall r, Row.board_id (set r) = Row.board_id r) ->
  ids (UPDATE_boards set board_id now tbl) = ids tbl.
Proof.
  intros Hset. rewrite UPDATE_boards_map by assumption.
  unfold ids. rewrite map_map. apply map_ext. intros r.
  destruct (has_board_id board_id r); simpl; auto.
Qed.

Lemma ids_apply_changes board_id changes now tbl :
  ids (apply_changes board_id changes now tbl) = ids tbl.
Proof.
  unfold apply_changes.
  destruct (BoardChanges.board_name changes), (BoardChanges.cover_image_name changes);
    repeat rewrite ids_UPDATE_boards; auto.
Qed.

Lemma ids_INSERT_OR_IGNORE board_id board_name now tbl :
  incl (ids (INSERT_OR_IGNORE board_id board_name now tbl)) (board_id :: ids tbl).
Proof.
  unfold INSERT_OR_IGNORE, ids.
  destruct (existsb (has_board_id board_id) tbl).
  - apply incl_tl, incl_refl.
  - rewrite map_app. simpl. intros x Hin. apply in_app_or in Hin.
    simpl in *. tauto.
Qed.

Lemma ids_DELETE board_id tbl : incl (ids (DELETE board_id tbl)) (ids tbl).
Proof.
  unfold DELETE, ids. intros x Hin. apply in_map_iff in Hin.
  destruct Hin as [r [Hr Hin]]. apply filter_In in Hin.
  apply in_map_iff. exists r. tauto.
Qed.

(** Every identifier in the table was given out by an earlier [save]. *)
Lemma perform_ids k c known :
  idle c -> incl (ids (boards c)) known ->
  idle (perform k c) /\ incl (ids (boards (perform k c))) (generated [k] ++ known).
Proof.
  intros Hidle Hincl. destruct k as [now io|u n|b|b ch|b|o l]; simpl.
  - split; assumption.
  - destruct (save_frame u n c Hidle) as [Hi [_ [Hb|Hb]]]; split; auto; rewrite Hb.
    + now apply incl_tl.
    + eapply incl_tran; [apply ids_INSERT_OR_IGNORE|].
      apply incl_cons; [now left | now apply incl_tl].
  - destruct (get_frame b c Hidle) as [Hi [_ Hb]]. rewrite Hb. auto.
  - destruct (update_frame b ch c Hidle) as [Hi [_ [Hb|Hb]]]; split; auto; rewrite Hb; auto.
    now rewrite ids_apply_changes.
  - destruct (delete_frame b c Hidle) as [Hi [_ [Hb|Hb]]]; split; auto; rewrite Hb; auto.
    eapply incl_tran; [apply ids_DELETE | assumption].
  - destruct (get_many_frame o l c Hidle) as [Hi [_ Hb]]. rewrite Hb. auto.
Qed.

Lemma generated_app calls calls' :
  generated (calls ++ calls') = generated calls ++ generated calls'.
Proof.
  induction calls as [|k calls IH]; simpl; [reflexivity|].
  destruct k; simpl; now rewrite ?IH.
Qed.

Lemma history_ids calls c known :
  idle c -> incl (ids (boards c)) known ->
  idle (history calls c) /\
  incl (ids (boards (history calls c))) (generated calls ++ known).
Proof.
  revert c known. induction calls as [|k calls IH]; intros c known Hidle Hincl;
    [simpl; auto|].
  change (history (k :: calls) c) with (history calls (perform k c)).
  change (k :: calls) with ([k] ++ calls). rewrite generated_app.
  destruct (perform_ids k c known Hidle Hincl) as [Hi Hn].
  destruct (IH _ _ Hi Hn) as [Hi' Hn']. split; [assumption|].
  intros x Hin. apply Hn' in Hin.
  apply in_app_or in Hin. destruct Hin as [Hin|Hin].
  - apply in_or_app. left. apply in_or_app. now right.
  - apply in_app_or in Hin. destruct Hin as [Hin|Hin].
    + apply in_or_app. left. apply in_or_app. now left.
    + apply in_or_app. now right.
Qed.

(** ** The cover image under updates *)

Lemma has_cover_UPDATE_boards set board_id now key tbl :
  (forall r, Row.board_id (set r) = Row.board_id r) ->
  (forall r s, Row.cover_image_name r = Some s ->
               exists s', Row.cover_image_name (set r) = Some s') ->
  has_cover (lookup key tbl) ->
  has_cover (lookup key (UPDATE_boards set board_id now tbl)).
Proof.
  intros Hid Hcover [r [s [Hrow Hs]]].
  rewrite lookup_UPDATE_boards by assumption. rewrite Hrow. simpl.
  destruct (has_board_id board_id r).
  - destruct (Hcover r s Hs) as [s' Hs']. now exists (touched now (set r)), s'.
  - now exists r, s.
Qed.

Lemma has_cover_apply_changes board_id changes now key tbl :
  has_cover (lookup key tbl) ->
  has_cover (lookup key (apply_changes board_id changes now tbl)).
Proof.
  intros Hc. unfold apply_changes.
  destruct (BoardChanges.board_name changes) as [n|],
           (BoardChanges.cover_image_name changes) as [v|];
    auto; repeat (apply has_cover_UPDATE_boards; [reflexivity | simpl; eauto |]); auto.
Qed.

(** ** Ordering by timestamp *)

Lemma leb_trans (a b c : string) :
  String.leb a b = true -> String.leb b c = true -> String.leb a c = true.
Proof.
  unfold String.leb. revert b c.
  induction a as [|x a IH]; intros [|y b] [|z c]; simpl; try congruence.
  unfold Ascii.compare.
  destruct (N.compare_spec (N_of_ascii x) (N_of_ascii y)) as [E1|L1|G1];
    destruct (N.compare_spec (N_of_ascii y) (N_of_ascii z)) as [E2|L2|G2];
    destruct (N.compare_spec (N_of_ascii x) (N_of_ascii z)) as [E3|L3|G3];
    try congruence; try lia.
  apply IH.
Qed.

Lemma descending_trans a b c : descending a b -> descending b c -> descending a c.
Proof. unfold descending, ts_le. intros H1 H2. eapply leb_trans; eauto. Qed.

Lemma insert_desc_perm r sorted : Permutation (insert_desc r sorted) (r :: sorted).
Proof.
  induction sorted as [|x rest IH]; simpl; [reflexivity|].
  destruct (ts_le (Row.updated_at x) (Row.updated_at r)); [reflexivity|].
  rewrite IH. apply perm_swap.
Qed.

Lemma ORDER_BY_perm tbl : Permutation (ORDER_BY_updated_at_DESC tbl) tbl.
Proof.
  induction tbl as [|r tbl IH]; simpl; [reflexivity|].
  rewrite insert_desc_perm. now constructor.
Qed.

Lemma insert_desc_sorted r sorted :
  StronglySorted descending sorted -> StronglySorted descending (insert_desc r sorted).
Proof.
  induction 1 as [|x rest Hrest IH Hx]; simpl; [repeat constructor|].
  destruct (ts_le (Row.updated_at x) (Row.updated_at r)) eqn:E.
  - constructor; [now constructor|].
    constructor; [exact E|].
    eapply Forall_impl; [|exact Hx]. intros y Hy.
    eapply descending_trans; [exact E | exact Hy].
  - constructor; [assumption|].
    eapply Permutation_Forall; [symmetry; apply insert_desc_perm|].
    constructor; [|assumption].
    unfold descending, ts_le in *.
    destruct (String.leb_total (Row.updated_at x) (Row.updated_at r)); congruence.
Qed.

Lemma ORDER_BY_sorted tbl : StronglySorted descending (ORDER_BY_updated_at_DESC tbl).
Proof.
  induction tbl as [|r tbl IH]; simpl; [constructor|].
  now apply insert_desc_sorted.
Qed.

Lemma ORDER_BY_length tbl :
  List.length (ORDER_BY_updated_at_DESC tbl) = List.length tbl.
Proof. apply Permutation_length, ORDER_BY_perm. Qed.

(** ** The order of formatted timestamps *)

Lemma decimal_length w n : String.length (decimal w n) = w.
Proof. revert n. induction w as [|w IH]; intros n; simpl; auto. Qed.

Lemma compare_refl s : String.compare s s = Eq.
Proof.
  induction s as [|a s IH]; simpl; [reflexivity|].
  unfold Ascii.compare. now rewrite N.compare_refl.
Qed.

(** Comparing two texts that start with parts of equal length compares the
    parts first. *)
Lemma compare_append a a' b b' :
  String.length a = String.length a' ->
  String.compare (a ++ b) (a' ++ b') =
  match String.compare a a' with
  | Eq => String.compare b b'
  | ne => ne
  end.
Proof.
  revert a'. induction a as [|x a IH]; intros [|y a'] Hlen; simpl in *;
    try discriminate; [reflexivity|].
  destruct (Ascii.compare x y); auto.
Qed.

Lemma compare_digit d e :
  (d < 10)%N -> (e < 10)%N -> Ascii.compare (digit d) (digit e) = (d ?= e)%N.
Proof.
  intros Hd He. unfold Ascii.compare, digit.
  rewrite !N.mod_small by assumption.
  rewrite !N_ascii_embedding by lia.
  destruct (N.compare_spec (48 + d) (48 + e)), (N.compare_spec d e);
    try reflexivity; lia.
Qed.

Lemma compare_base p a b r r' :
  (r < p)%N -> (r' < p)%N ->
  (p * a + r ?= p * b + r')%N =
  match (a ?= b)%N with
  | Eq => (r ?= r')%N
  | ne => ne
  end.
Proof.
  intros Hr Hr'.
  destruct (N.compare_spec a b) as [E|L|G].
  - subst b. destruct (N.compare_spec r r');
      [apply N.compare_eq_iff | apply N.compare_lt_iff | apply N.compare_gt_iff]; lia.
  - apply N.compare_lt_iff.
    assert (p * (a + 1) <= p * b)%N by (apply N.mul_le_mono_l; lia). lia.
  - apply N.compare_gt_iff.
    assert (p * (b + 1) <= p * a)%N by (apply N.mul_le_mono_l; lia). lia.
Qed.

Lemma compare_decimal w n m :
  (n < 10 ^ N.of_nat w)%N -> (m < 10 ^ N.of_nat w)%N ->
  String.compare (decimal w n) (decimal w m) = (n ?= m)%N.
Proof.
  revert n m. induction w as [|w IH]; intros n m Hn Hm.
  - simpl in *. assert (n = 0 /\ m = 0)%N as [-> ->] by lia. reflexivity.
  - rewrite Nat2N.inj_succ, N.pow_succ_r' in Hn, Hm.
    set (p := (10 ^ N.of_nat w)%N) in *.
    assert (0 < p)%N as Hp by (apply N.neq_0_lt_0, N.pow_nonzero; discriminate).
    simpl. fold p.
    assert (n mod p < p)%N as Ln by (apply N.mod_lt; lia).
    assert (m mod p < p)%N as Lm by (apply N.mod_lt; lia).
    assert (n / p < 10)%N by (apply N.Div0.div_lt_upper_bound; lia).
    assert (m / p < 10)%N by (apply N.Div0.div_lt_upper_bound; lia).
    rewrite compare_digit by assumption.
    rewrite IH by assumption.
    rewrite (N.div_mod n p) at 3 by lia.
    rewrite (N.div_mod m p) at 3 by lia.
    symmetry. now apply compare_base.
Qed.

Lemma valid_instant_bounds t :
  valid_instant t = true ->
  (year t < 10000 /\ month t < 100 /\ day t < 100 /\ hour t < 100
   /\ minute t < 100 /\ second t < 100 /\ millis t < 1000)%N.
Proof.
  unfold valid_instant. rewrite !andb_true_iff.
  rewrite !N.ltb_lt, !N.leb_le. lia.
Qed.

Lemma compare_decimal2 n m :
  (n < 100)%N -> (m < 100)%N ->
  String.compare (decimal 2 n) (decimal 2 m) = (n ?= m)%N.
Proof. intros Hn Hm. apply compare_decimal; assumption. Qed.

Lemma compare_decimal4 n m :
  (n < 10000)%N -> (m < 10000)%N ->
  String.compare (decimal 4 n) (decimal 4 m) = (n ?= m)%N.
Proof. intros Hn Hm. apply compare_decimal; assumption. Qed.

(** On valid readings the text order of [date_time] is the order of time. *)
Lemma compare_date_time t t' :
  valid_instant t = true -> valid_instant t' = true ->
  String.compare (date_time t) (date_time t') = (whole_second t ?= whole_second t')%N.
Proof.
  intros Ht Ht'. apply valid_instant_bounds in Ht, Ht'.
  unfold date_time, whole_second.
  destruct t as [y mo d h mi s ms], t' as [y' mo' d' h' mi' s' ms'].
  cbn [year month day hour minute second millis] in *.
  repeat rewrite compare_append by (rewrite ?decimal_length; reflexivity).
  rewrite !compare_refl.
  rewrite compare_decimal4, !compare_decimal2 by lia.
  rewrite !(N.mul_comm _ 100).
  repeat rewrite compare_base by lia.
  destruct (y ?= y')%N, (mo ?= mo')%N, (d ?= d')%N, (h ?= h')%N, (mi ?= mi')%N;
    reflexivity.
Qed.

Lemma ts_le_current_timestamp t t' :
  valid_instant t = true -> valid_instant t' = true ->
  ts_le (current_timestamp t) (current_timestamp t') =
  (whole_second t <=? whole_second t')%N.
Proof.
  intros Ht Ht'. unfold ts_le, String.leb, current_timestamp, N.leb.
  now rewrite compare_date_time.
Qed.

(** * The claims *)

(** ** C1: delete *)

(** C1.  [delete] passes [(board_id)], a plain [str], where the other
    methods pass the tuple [(board_id,)].  With the 36 characters of a UUID
    the statement's single placeholder gets 36 bindings: the call raises
    [BoardRecordDeleteException], for an identifier that is not stored and
    for one that is, and a stored board is still there afterwards. *)
Theorem delete_raises_for_uuid :
  delete another_uuid one_board =
    (Raise (BoardRecordDeleteException (Some ProgrammingError)), one_board) /\
  lookup another_uuid (boards one_board) = None /\
  delete a_uuid one_board =
    (Raise (BoardRecordDeleteException (Some ProgrammingError)), one_board) /\
  fst (get a_uuid one_board) =
    Return (BoardRecord.mk a_uuid "Landscapes" "2023-06-14 12:00:00.500"
                           "2023-06-14 12:00:00.500" None).
Proof. vm_compute. repeat split. Qed.

(** ** C2: created_at and updated_at *)

(** C2.  A board saved at 12:00:00.500 and renamed at 12:00:00.700 has
    [created_at] from the column default, with milliseconds, and
    [updated_at] from the trigger's [current_timestamp], without: the
    update time reads earlier than the creation time. *)
Theorem updated_at_before_created_at :
  let renamed :=
    snd (update a_uuid (BoardChanges.mk (Some "Seascapes") None)
                (at_time noon_0_700 [] one_board)) in
  exists r,
    fst (get a_uuid renamed) = Return r /\
    BoardRecord.created_at r = "2023-06-14 12:00:00.500" /\
    BoardRecord.updated_at r = "2023-06-14 12:00:00" /\
    ts_le (BoardRecord.created_at r) (BoardRecord.updated_at r) = false /\
    ts_lt (BoardRecord.updated_at r) (BoardRecord.created_at r) = true.
Proof. eexists. vm_compute. repeat split. Qed.

(** ** C5: update of an unknown identifier *)



(** ** C6: get *)

(** A [str] with a lone surrogate has no UTF-8 encoding: binding it
    raises [UnicodeEncodeError], which is not an [sqlite3.Error], and [get]
    lets it through. *)
Lemma get_unencodable_id :
  fst (SqliteBoardRecordStorage.get lone_surrogate one_board) = Raise UnicodeEncodeError /\
  is_not_found UnicodeEncodeError = false.
Proof. split; reflexivity. Qed.

(** C6, amended.  For an identifier that UTF-8 can encode, [get] fails
    with [BoardRecordNotFoundException] when no row has the identifier and
    when the lookup raises a database error, and it raises nothing else.
    For an identifier that UTF-8 cannot encode it raises
    [UnicodeEncodeError]. *)
Theorem get_not_found_or_encode_error (board_id : pystr) c :
  match encode board_id with
  | Some text =>
      (lookup text (boards c) = None ->
       exists cause,
         fst (SqliteBoardRecordStorage.get board_id c) =
         Raise (BoardRecordNotFoundException cause)) /\
      (hd false (faults c) = true ->
       fst (SqliteBoardRecordStorage.get board_id c) =
       Raise (BoardRecordNotFoundException (Some OperationalError))) /\
      (forall e,
         fst (SqliteBoardRecordStorage.get board_id c) = Raise e ->
         is_not_found e = true)
  | None =>
      fst (SqliteBoardRecordStorage.get board_id c) = Raise UnicodeEncodeError
  end.
Proof.
  rewrite py_get_outcome. destruct (encode board_id) as [text|]; [|reflexivity].
  repeat split.
  - intros Hnone. rewrite Hnone. destruct (faults c) as [|[|] ?]; eauto.
  - destruct (faults c) as [|[|] ?]; simpl; congruence.
  - intros e. destruct (faults c) as [|[|] ?];
      try destruct (lookup text (boards c)); intros H; inversion H; reflexivity.
Qed.

Lemma get_not_found_or_encode_error_witness :
  (exists cause,
     fst (SqliteBoardRecordStorage.get (str another_uuid) one_board) =
     Raise (BoardRecordNotFoundException cause)) /\
  fst (SqliteBoardRecordStorage.get (str a_uuid) (at_time noon_0_700 [true] one_board)) =
    Raise (BoardRecordNotFoundException (Some OperationalError)) /\
  is_not_found (BoardRecordNotFoundException None) = true /\
  fst (SqliteBoardRecordStorage.get [e_acute; Surrogate 56832] one_board) =
    Raise UnicodeEncodeError.
Proof.
  pose proof (get_not_found_or_encode_error (str another_uuid) one_board) as Hmissing.
  pose proof (get_not_found_or_encode_error (str a_uuid)
                (at_time noon_0_700 [true] one_board)) as Hfault.
  rewrite encode_str in Hmissing, Hfault.
  destruct Hmissing as [Hnone [_ Honly]]. destruct Hfault as [_ [Herror _]].
  split; [|split; [|split]].
  - apply Hnone. reflexivity.
  - apply Herror. reflexivity.
  - apply (Honly (BoardRecordNotFoundException None)). reflexivity.
  - exact (get_not_found_or_encode_error [e_acute; Surrogate 56832] one_board).
Defined.

(** ** C9: the empty patch *)

(** C9.  With both fields absent [update] executes no statement at all and
    the connection, the row and its [updated_at] included, is exactly as
    before. *)
Theorem update_empty_patch board_id c :
  idle c ->
  update board_id (BoardChanges.mk None None) c = (Return tt, c) /\
  executed (snd (update board_id (BoardChanges.mk None None) c)) = executed c /\
  lookup board_id (boards (snd (update board_id (BoardChanges.mk None None) c)))
    = lookup board_id (boards c).
Proof.
  unfold idle. intros Hidle.
  assert (update board_id (BoardChanges.mk None None) c = (Return tt, c)) as H.
  { destruct c as [b j cu cl fs ex]. simpl in Hidle. subst j. reflexivity. }
  rewrite H. auto.
Qed.

Lemma update_empty_patch_witness :
  update a_uuid (BoardChanges.mk None None) one_board = (Return tt, one_board) /\
  executed (snd (update a_uuid (BoardChanges.mk None None) one_board))
    = executed one_board /\
  lookup a_uuid (boards (snd (update a_uuid (BoardChanges.mk None None) one_board)))
    = lookup a_uuid (boards one_board).
Proof. apply (update_empty_patch a_uuid one_board). reflexivity. Defined.

(** ** C3: save *)




(** ** C10: the cover image is never cleared *)

(** C10.  A patch whose [cover_image_name] is [None] is skipped like an
    absent field, so through any run of [update] calls, whatever their
    identifiers, patches, times and database faults, a board that has a
    cover image keeps one. *)
Theorem cover_image_never_cleared calls board_id c :
  idle c ->
  has_cover (lookup board_id (boards c)) ->
  idle (updates calls c) /\
  has_cover (lookup board_id (boards (updates calls c))).
Proof.
  revert c. induction calls as [|[[[now io] b] changes] calls IH];
    intros c Hidle Hcover; simpl; [auto|].
  destruct (update_frame b changes (at_time now io c) Hidle) as [Hi [_ Hb]].
  apply IH; [assumption|].
  destruct Hb as [Hb|Hb]; rewrite Hb; simpl; [assumption|].
  now apply has_cover_apply_changes.
Qed.

Lemma cover_image_never_cleared_witness :
  let covered :=
    snd (update a_uuid (BoardChanges.mk None (Some "img-1.png")) one_board) in
  let calls :=
    [(noon_5_200, [], a_uuid, BoardChanges.mk (Some "Seascapes") None);
     (noon_5_800, [false; true], a_uuid, BoardChanges.mk (Some "X") (Some "img-2.png"));
     (noon_5_800, [], another_uuid, BoardChanges.mk None None)] in
  idle (updates calls covered) /\
  has_cover (lookup a_uuid (boards (updates calls covered))).
Proof.
  apply (cover_image_never_cleared
           [(noon_5_200, [], a_uuid, BoardChanges.mk (Some "Seascapes") None);
            (noon_5_800, [false; true], a_uuid,
             BoardChanges.mk (Some "X") (Some "img-2.png"));
            (noon_5_800, [], another_uuid, BoardChanges.mk None None)]
           a_uuid
           (snd (update a_uuid (BoardChanges.mk None (Some "img-1.png")) one_board))).
  - reflexivity.
  - eexists. eexists. split; reflexivity.
Defined.

(** ** C8: validation of a patch *)

Lemma is_field_iff k :
  is_field k = true <-> k = "board_name" \/ k = "cover_image_name".
Proof.
  unfold is_field, BoardChanges_fields, existsb.
  rewrite orb_false_r, orb_true_iff, !String.eqb_eq. intuition congruence.
Qed.

(** A field that is present with the value [None] passes validation, and
    the patch is the one with the field left out. *)
Lemma explicit_null_is_accepted :
  kwargs_get "board_name" [("board_name", PyNone)] = Some PyNone /\
  BoardChanges_init [("board_name", PyNone)] = Return (BoardChanges.mk None None) /\
  BoardChanges_init [("board_name", PyNone)] <> Raise ValidationError.
Proof. repeat split. discriminate. Qed.

(** C8, amended.  A keyword that is not a field makes the constructor
    fail; no keyword at all gives the empty patch; a field given as
    [None] is accepted and changes nothing about the result: it is the
    patch with that field absent. *)
Theorem BoardChanges_validation :
  (forall kwargs k v,
     In (k, v) kwargs -> is_field k = false ->
     BoardChanges_init kwargs = Raise ValidationError) /\
  BoardChanges_init [] = Return (BoardChanges.mk None None) /\
  (forall kwargs f,
     is_field f = true -> kwargs_get f kwargs = None ->
     BoardChanges_init ((f, PyNone) :: kwargs) = BoardChanges_init kwargs).
Proof.
  split; [|split].
  - intros kwargs k v Hin Hk. unfold BoardChanges_init.
    assert (forallb (fun kv => is_field (fst kv)) kwargs = false) as Hall.
    { destruct (forallb (fun kv => is_field (fst kv)) kwargs) eqn:E; [|reflexivity].
      rewrite forallb_forall in E. specialize (E _ Hin). simpl in E. congruence. }
    rewrite Hall.
    destruct (validate_optional_field "board_name" kwargs),
             (validate_optional_field "cover_image_name" kwargs); reflexivity.
  - reflexivity.
  - intros kwargs f Hf Habsent. unfold BoardChanges_init. cbn [forallb fst].
    rewrite Hf. cbn [andb].
    apply is_field_iff in Hf. unfold validate_optional_field.
    destruct Hf as [-> | ->]; cbn [kwargs_get]; rewrite ?String.eqb_refl;
      rewrite Habsent; reflexivity.
Qed.

Lemma BoardChanges_validation_witness :
  BoardChanges_init [("board_name", PyStr "X"); ("board_id", PyStr a_uuid)]
    = Raise ValidationError /\
  BoardChanges_init [] = Return (BoardChanges.mk None None) /\
  BoardChanges_init [("cover_image_name", PyNone); ("board_name", PyStr "X")]
    = BoardChanges_init [("board_name", PyStr "X")].
Proof.
  destruct BoardChanges_validation as [Hextra [Hempty Hnull]].
  split; [|split].
  - apply (Hextra [("board_name", PyStr "X"); ("board_id", PyStr a_uuid)]
                  "board_id" (PyStr a_uuid)); [simpl; auto | reflexivity].
  - exact Hempty.
  - apply (Hnull [("board_name", PyStr "X")] "cover_image_name"); reflexivity.
Defined.

(** ** C4: renaming a board *)

(** C4.  A board saved at 12:00:00.500 and renamed at 12:00:00.700: [get]
    returns the new name and the cover image as before, but [updated_at],
    written by the trigger without milliseconds, reads earlier than the
    value the row had before the update, not later. *)
Theorem update_moves_updated_at_back :
  exists before after,
    fst (get a_uuid one_board) = Return before /\
    fst (get a_uuid
             (snd (update a_uuid (BoardChanges.mk (Some "X") None)
                          (at_time noon_0_700 [] one_board)))) = Return after /\
    BoardRecord.board_name after = "X" /\
    BoardRecord.cover_image_name after = BoardRecord.cover_image_name before /\
    BoardRecord.updated_at before = "2023-06-14 12:00:00.500" /\
    BoardRecord.updated_at after = "2023-06-14 12:00:00" /\
    ts_lt (BoardRecord.updated_at before) (BoardRecord.updated_at after) = false /\
    ts_lt (BoardRecord.updated_at after) (BoardRecord.updated_at before) = true.
Proof. eexists. eexists. vm_compute. repeat split. Qed.

(** ** C7: get_many *)

(** A limit of 2^63 is a non-negative [int], but it does not fit SQLite's
    INTEGER: binding it raises [OverflowError] and no page is returned. *)
Lemma get_many_limit_too_large :
  (0 <= 2 ^ 63)%Z /\
  fst (get_many 0 (2 ^ 63) one_board) = Raise OverflowError.
Proof. split; [lia | reflexivity]. Qed.

Lemma int64_of_bounds z : (0 <= z < 2 ^ 63)%Z -> int64 z = true.
Proof.
  intros Hz. unfold int64. apply andb_true_iff.
  rewrite Z.leb_le, Z.ltb_lt. lia.
Qed.

Lemma length_page (rows : list Row.t) offset limit :
  (0 <= limit)%Z ->
  List.length (map BoardRecord_of_row (LIMIT_OFFSET limit offset rows)) =
  Nat.min (Z.to_nat limit) (List.length rows - Z.to_nat offset).
Proof.
  intros Hlimit. unfold LIMIT_OFFSET.
  destruct (Z.ltb_spec limit 0) as [Hneg|_]; [lia|].
  now rewrite length_map, length_firstn, length_skipn.
Qed.

(** C7, amended.  For offset and limit from 0 up to 2^63 - 1, and a
    database that does not fail, [get_many] returns the rows numbered
    [offset], [offset + 1], ... of the table in descending order of
    [updated_at], [limit] of them or as many as there are, echoes offset
    and limit, and reports the number of rows of the table as total. *)
Theorem get_many_page c offset limit :
  no_fault c ->
  (0 <= offset < 2 ^ 63)%Z ->
  (0 <= limit < 2 ^ 63)%Z ->
  let sorted := ORDER_BY_updated_at_DESC (boards c) in
  exists page c',
    get_many offset limit c = (Return page, c') /\
    boards c' = boards c /\ no_fault c' /\
    Permutation sorted (boards c) /\
    StronglySorted descending sorted /\
    OffsetPaginatedResults.items page =
      map BoardRecord_of_row (firstn (Z.to_nat limit) (skipn (Z.to_nat offset) sorted)) /\
    List.length (OffsetPaginatedResults.items page) =
      Nat.min (Z.to_nat limit) (List.length (boards c) - Z.to_nat offset) /\
    OffsetPaginatedResults.offset page = offset /\
    OffsetPaginatedResults.limit page = limit /\
    OffsetPaginatedResults.total page = Z.of_nat (List.length (boards c)).
Proof.
  intros Hio Hoff Hlim sorted.
  destruct (get_many_ok offset limit c Hio (int64_of_bounds _ Hoff) (int64_of_bounds _ Hlim))
    as [c' [Hrun [Hb [Hio' _]]]].
  eexists. exists c'. split; [exact Hrun|].
  cbn [OffsetPaginatedResults.items OffsetPaginatedResults.offset
       OffsetPaginatedResults.limit OffsetPaginatedResults.total].
  repeat split; try assumption.
  - apply ORDER_BY_perm.
  - apply ORDER_BY_sorted.
  - unfold LIMIT_OFFSET. destruct (Z.ltb_spec limit 0); [lia | reflexivity].
  - rewrite length_page by lia. now rewrite ORDER_BY_length.
Qed.

(** With 15 boards stored, the first page of 10 has 10 items, the page
    after it has the other 5, and both report 15 as total. *)
Lemma get_many_fifteen_boards c :
  no_fault c ->
  List.length (boards c) = 15%nat ->
  exists first c1 second c2,
    get_many 0 10 c = (Return first, c1) /\
    get_many 10 10 c1 = (Return second, c2) /\
    List.length (OffsetPaginatedResults.items first) = 10%nat /\
    OffsetPaginatedResults.total first = 15%Z /\
    List.length (OffsetPaginatedResults.items second) = 5%nat /\
    OffsetPaginatedResults.total second = 15%Z /\
    OffsetPaginatedResults.items first ++ OffsetPaginatedResults.items second =
      map BoardRecord_of_row (ORDER_BY_updated_at_DESC (boards c)).
Proof.
  intros Hio Hlen.
  destruct (get_many_ok 0 10 c Hio eq_refl eq_refl) as [c1 [Hrun1 [Hb1 [Hio1 _]]]].
  destruct (get_many_ok 10 10 c1 Hio1 eq_refl eq_refl) as [c2 [Hrun2 _]].
  rewrite Hb1 in Hrun2.
  do 4 eexists. split; [exact Hrun1|]. split; [exact Hrun2|].
  cbn [OffsetPaginatedResults.items OffsetPaginatedResults.total].
  rewrite !length_page by lia. rewrite ORDER_BY_length, Hlen.
  repeat split.
  unfold LIMIT_OFFSET. cbn [Z.ltb Z.compare].
  change (Z.to_nat 10) with 10%nat. change (Z.to_nat 0) with 0%nat.
  rewrite skipn_O, <- map_app, (firstn_then_next 10 10).
  rewrite firstn_all2; [reflexivity|]. rewrite ORDER_BY_length. lia.
Qed.

Lemma get_many_page_witness :
  exists page c',
    get_many 10 10 fifteen_boards = (Return page, c') /\
    List.length (OffsetPaginatedResults.items page) = 5%nat /\
    OffsetPaginatedResults.offset page = 10%Z /\
    OffsetPaginatedResults.limit page = 10%Z /\
    OffsetPaginatedResults.total page = 15%Z.
Proof.
  destruct (get_many_page fifteen_boards 10 10)
    as [page [c' [Hrun [_ [_ [_ [_ [_ [Hlen [Hoff [Hlim Htotal]]]]]]]]]]];
    [reflexivity | lia | lia |].
  exists page, c'. repeat split; assumption.
Defined.

(** * Further properties of the storage class *)

(** ** Rows under the statements *)

Lemma lookup_has_board_id key tbl r :
  lookup key tbl = Some r -> Row.board_id r = key.
Proof.
  intros Hrow. apply has_board_id_eq. exact (proj2 (find_some _ _ Hrow)).
Qed.

Lemma lookup_apply_changes board_id changes now key tbl :
  lookup key (apply_changes board_id changes now tbl) =
  option_map (fun r => if has_board_id board_id r then patched changes now r else r)
             (lookup key tbl).
Proof.
  unfold apply_changes, patched.
  destruct (BoardChanges.board_name changes) as [n|],
           (BoardChanges.cover_image_name changes) as [v|];
    repeat rewrite lookup_UPDATE_boards by reflexivity;
    destruct (lookup key tbl) as [r|]; simpl; try reflexivity;
    destruct (has_board_id board_id r) eqn:E; simpl; try reflexivity.
  - unfold has_board_id in *. simpl. now rewrite E.
  - now rewrite E.
Qed.

Lemma lookup_DELETE board_id key tbl :
  lookup key (DELETE board_id tbl) =
  if (key =? board_id)%string then None else lookup key tbl.
Proof.
  unfold lookup, DELETE. induction tbl as [|r tbl IH]; simpl.
  - now destruct (key =? board_id)%string.
  - destruct (has_board_id board_id r) eqn:Eid; simpl; rewrite IH;
      destruct (has_board_id key r) eqn:Er;
      destruct (key =? board_id)%string eqn:Ek; try reflexivity.
    + apply has_board_id_eq in Eid, Er. apply String.eqb_neq in Ek. congruence.
    + apply has_board_id_eq in Er. apply String.eqb_eq in Ek. subst.
      unfold has_board_id in Eid. now rewrite String.eqb_refl in Eid.
Qed.

Lemma lookup_INSERT_some board_id board_name now tbl :
  lookup board_id (INSERT_OR_IGNORE board_id board_name now tbl) <> None.
Proof.
  destruct (lookup board_id tbl) as [r|] eqn:Hrow.
  - rewrite (lookup_INSERT_existing _ _ _ _ _ Hrow). congruence.
  - rewrite (lookup_INSERT_fresh _ _ _ _ Hrow). discriminate.
Qed.

Lemma identity_apply_changes board_id changes now tbl :
  map identity (apply_changes board_id changes now tbl) = map identity tbl.
Proof.
  unfold apply_changes.
  destruct (BoardChanges.board_name changes), (BoardChanges.cover_image_name changes);
    repeat rewrite UPDATE_boards_map by reflexivity;
    repeat rewrite map_map; try reflexivity; apply map_ext; intros r;
    repeat match goal with
           | |- context [has_board_id ?b ?x] => destruct (has_board_id b x); simpl
           end; reflexivity.
Qed.

Lemma NoDup_ids_INSERT board_id board_name now tbl :
  NoDup (ids tbl) -> NoDup (ids (INSERT_OR_IGNORE board_id board_name now tbl)).
Proof.
  intros Hnd. unfold INSERT_OR_IGNORE.
  destruct (existsb (has_board_id board_id) tbl) eqn:E; [assumption|].
  unfold ids. rewrite map_app. simpl.
  apply NoDup_app; [assumption | repeat constructor; intros [] |].
  intros x Hin [Hx|[]]. subst x.
  apply in_map_iff in Hin. destruct Hin as [r [Hr Hin]].
  assert (existsb (has_board_id board_id) tbl = true) as Hex.
  { apply existsb_exists. exists r. split; [assumption|]. now apply has_board_id_eq. }
  congruence.
Qed.

Lemma NoDup_ids_DELETE board_id tbl :
  NoDup (ids tbl) -> NoDup (ids (DELETE board_id tbl)).
Proof.
  unfold ids, DELETE. induction tbl as [|r tbl IH]; simpl; intros Hnd; [constructor|].
  inversion Hnd as [|x l Hnotin Hrest]; subst.
  destruct (negb (has_board_id board_id r)); [|auto].
  simpl. constructor; [|auto].
  intros Hin. apply Hnotin. apply in_map_iff in Hin.
  destruct Hin as [r' [Hr' Hin]]. apply filter_In in Hin.
  apply in_map_iff. exists r'. tauto.
Qed.

(** ** save *)

(** X1.  When [save] returns a record, a [get] of its identifier right
    after returns the same record. *)
Theorem get_after_save uuid4 board_name c r :
  no_fault c ->
  fst (save uuid4 board_name c) = Return r ->
  fst (get uuid4 (snd (save uuid4 board_name c))) = Return r.
Proof.
  intros Hio Hsave.
  destruct (save_ok uuid4 board_name c Hio) as [Hr [Hb Hio']].
  rewrite get_outcome, Hio', Hb. rewrite Hr in Hsave.
  destruct (lookup uuid4 (INSERT_OR_IGNORE uuid4 board_name (clock c) (boards c)));
    [assumption | discriminate].
Qed.

Lemma get_after_save_witness :
  fst (get another_uuid (snd (save another_uuid "Portraits" one_board))) =
  Return (BoardRecord.mk another_uuid "Portraits" "2023-06-14 12:00:00.500"
                         "2023-06-14 12:00:00.500" None).
Proof. apply (get_after_save another_uuid "Portraits" one_board); reflexivity. Defined.

(** X2.  When the drawn identifier is already stored, INSERT OR IGNORE
    leaves the table as it is and [save] returns the stored board, with
    the stored name and not the one asked for. *)
Theorem save_existing_id uuid4 board_name c row :
  no_fault c ->
  lookup uuid4 (boards c) = Some row ->
  fst (save uuid4 board_name c) = Return (BoardRecord_of_row row) /\
  boards (snd (save uuid4 board_name c)) = boards c.
Proof.
  intros Hio Hrow.
  destruct (save_ok uuid4 board_name c Hio) as [Hr [Hb _]].
  rewrite (lookup_INSERT_existing _ _ _ _ _ Hrow) in Hr, Hb.
  rewrite Hrow in Hr. auto.
Qed.

Lemma save_existing_id_witness :
  fst (save a_uuid "Portraits" (at_time noon_5_200 [] one_board)) =
    Return (BoardRecord.mk a_uuid "Landscapes" "2023-06-14 12:00:00.500"
                           "2023-06-14 12:00:00.500" None) /\
  boards (snd (save a_uuid "Portraits" (at_time noon_5_200 [] one_board))) =
    boards (at_time noon_5_200 [] one_board).
Proof.
  apply (save_existing_id a_uuid "Portraits" (at_time noon_5_200 [] one_board)
           (Row.mk a_uuid "Landscapes" None "2023-06-14 12:00:00.500"
                   "2023-06-14 12:00:00.500" None)); reflexivity.
Defined.

(** X3.  Whatever the database does, a failing [save] with a name that
    UTF-8 can encode raises [BoardRecordSaveException] with the database
    error as its cause: the row it reads back is always there, so
    [BoardRecord] is never built from [None].  With a name that UTF-8
    cannot encode it raises [UnicodeEncodeError], which no handler
    catches. *)
Theorem save_raises_only_save_exception uuid4 (board_name : pystr) c e :
  fst (SqliteBoardRecordStorage.save uuid4 board_name c) = Raise e ->
  match encode board_name with
  | Some _ => exists cause, e = BoardRecordSaveException (Some cause)
  | None => e = UnicodeEncodeError
  end.
Proof.
  destruct (encode board_name) as [text|] eqn:E.
  - pose proof (lookup_INSERT_some uuid4 text) as Hsome.
    unfold lookup in Hsome. setoid_rewrite <- hd_error_filter in Hsome.
    destruct c as [b j cu cl fs ex]. unfold_method. rewrite E. simpl.
    destruct j as [saved|]; simpl; repeat next_fault;
      try (intros H; inversion H; eauto; fail);
      try (destruct (filter (has_board_id uuid4) (INSERT_OR_IGNORE uuid4 text cl b))
             eqn:Ef; simpl; intros H; inversion H;
           exfalso; apply (Hsome cl b); now rewrite Ef).
  - destruct c as [b j cu cl fs ex]. unfold_method. rewrite E. simpl.
    intros H. now inversion H.
Qed.

Lemma save_raises_only_save_exception_witness :
  (exists cause,
     BoardRecordSaveException (Some OperationalError) =
     BoardRecordSaveException (Some cause)) /\
  UnicodeEncodeError = UnicodeEncodeError.
Proof.
  split.
  - pose proof (save_raises_only_save_exception another_uuid (str "Portraits")
                  (at_time noon_5_200 [false; true] one_board)
                  (BoardRecordSaveException (Some OperationalError))) as H.
    rewrite encode_str in H. apply H. reflexivity.
  - exact (save_raises_only_save_exception another_uuid lone_surrogate one_board
             UnicodeEncodeError eq_refl).
Defined.

(** X4.  The row is committed before it is read back.  When the read-back
    SELECT fails, [save] raises [BoardRecordSaveException] and the
    rollback has nothing to undo: the new board is stored all the same. *)
Theorem save_fails_after_commit uuid4 board_name c later :
  idle c ->
  faults c = false :: false :: true :: later ->
  lookup uuid4 (boards c) = None ->
  fst (save uuid4 board_name c) =
    Raise (BoardRecordSaveException (Some OperationalError)) /\
  lookup uuid4 (boards (snd (save uuid4 board_name c))) =
    Some (Row.mk uuid4 board_name None
                 (STRFTIME_f_NOW (clock c)) (STRFTIME_f_NOW (clock c)) None).
Proof.
  unfold idle. intros Hidle Hio Hnone.
  rewrite <- (lookup_INSERT_fresh uuid4 board_name (clock c) (boards c) Hnone).
  destruct c as [b j cu cl fs ex]. simpl in *. subst j fs.
  unfold_method. simpl. auto.
Qed.

Lemma save_fails_after_commit_witness :
  fst (save another_uuid "Portraits"
            (at_time noon_5_200 [false; false; true] one_board)) =
    Raise (BoardRecordSaveException (Some OperationalError)) /\
  lookup another_uuid
         (boards (snd (save another_uuid "Portraits"
                            (at_time noon_5_200 [false; false; true] one_board)))) =
    Some (Row.mk another_uuid "Portraits" None
                 "2023-06-14 12:00:05.200" "2023-06-14 12:00:05.200" None).
Proof.
  apply (save_fails_after_commit another_uuid "Portraits"
           (at_time noon_5_200 [false; false; true] one_board) []); reflexivity.
Defined.

(** ** delete *)

(** X5.  For every identifier that is not exactly one character long,
    the empty one and every UUID included, [delete] raises
    [BoardRecordDeleteException] caused by a [ProgrammingError] and leaves
    the connection exactly as it was. *)
Theorem delete_needs_one_character (board_id : pystr) c :
  List.length board_id <> 1%nat ->
  idle c ->
  SqliteBoardRecordStorage.delete board_id c =
  (Raise (BoardRecordDeleteException (Some ProgrammingError)), c).
Proof.
  unfold idle. intros Hlen Hidle.
  destruct c as [b j cu cl fs ex]. simpl in Hidle. subst j.
  destruct board_id as [|ch [|ch' rest]]; unfold_method; auto.
  simpl in Hlen. congruence.
Qed.

Lemma delete_needs_one_character_witness :
  SqliteBoardRecordStorage.delete [e_acute; e_acute] one_board =
  (Raise (BoardRecordDeleteException (Some ProgrammingError)), one_board).
Proof.
  apply (delete_needs_one_character [e_acute; e_acute] one_board);
    [discriminate | reflexivity].
Defined.

(** X6.  For an identifier of one character that UTF-8 can encode, in one
    byte or in several, the single binding fits: the row is deleted, a
    [get] of the identifier then raises [BoardRecordNotFoundException],
    and every other row is as before. *)
Theorem delete_one_character (ch : pychar) text c :
  no_fault c ->
  encode [ch] = Some text ->
  fst (SqliteBoardRecordStorage.delete [ch] c) = Return tt /\
  fst (SqliteBoardRecordStorage.get [ch] (snd (SqliteBoardRecordStorage.delete [ch] c))) =
    Raise (BoardRecordNotFoundException None) /\
  (forall key,
     key <> text ->
     lookup key (boards (snd (SqliteBoardRecordStorage.delete [ch] c))) =
     lookup key (boards c)).
Proof.
  intros Hio Henc.
  set (c' := snd (SqliteBoardRecordStorage.delete [ch] c)).
  assert (fst (SqliteBoardRecordStorage.delete [ch] c) = Return tt /\
          boards c' = DELETE text (boards c) /\ faults c' = []) as [Hr [Hb Hio']].
  { subst c'. unfold no_fault in Hio.
    destruct c as [b j cu cl fs ex]. simpl in Hio. subst fs.
    unfold_method. rewrite Henc. simpl. destruct j; simpl; auto. }
  split; [assumption|]. split.
  - rewrite py_get_outcome, Henc, Hio', Hb, lookup_DELETE. now rewrite String.eqb_refl.
  - intros key Hkey. rewrite Hb, lookup_DELETE.
    apply String.eqb_neq in Hkey. now rewrite Hkey.
Qed.

Lemma delete_one_character_witness :
  let text := String "195" (String "169" EmptyString) in
  let c := snd (save text "Sketches" one_board) in
  lookup text (boards c) <> None /\
  fst (SqliteBoardRecordStorage.delete [e_acute] c) = Return tt /\
  fst (SqliteBoardRecordStorage.get [e_acute]
         (snd (SqliteBoardRecordStorage.delete [e_acute] c))) =
    Raise (BoardRecordNotFoundException None) /\
  lookup a_uuid (boards (snd (SqliteBoardRecordStorage.delete [e_acute] c))) =
    lookup a_uuid (boards c).
Proof.
  intros text c.
  destruct (delete_one_character e_acute text c) as [Hr [Hget Hothers]];
    [reflexivity | reflexivity |].
  split; [discriminate|]. split; [exact Hr|]. split; [exact Hget|].
  apply Hothers. discriminate.
Defined.

(** ** update *)

(** X7.  What [update] leaves behind, by outcome.  When it returns,
    every statement of the patch has been applied.  When it raises
    [BoardRecordSaveException], the rollback has put the table back as it
    was before the call.  The only other exception is
    [UnicodeEncodeError], for an identifier or a value that UTF-8 cannot
    encode: the handler does not catch it, so the transaction stays open,
    and a first UPDATE that was already executed stays applied. *)
Theorem update_all_or_nothing (board_id : pystr) (changes : BoardChanges.t pystr) c :
  idle c ->
  match fst (SqliteBoardRecordStorage.update board_id changes c) with
  | Return _ =>
      (is_empty_patch changes = true /\
       boards (snd (SqliteBoardRecordStorage.update board_id changes c)) = boards c) \/
      (exists text patch,
         encode board_id = Some text /\ encode_changes changes = Some patch /\
         boards (snd (SqliteBoardRecordStorage.update board_id changes c)) =
         apply_changes text patch (clock c) (boards c))
  | Raise (BoardRecordSaveException cause) =>
      cause <> None /\
      idle (snd (SqliteBoardRecordStorage.update board_id changes c)) /\
      boards (snd (SqliteBoardRecordStorage.update board_id changes c)) = boards c
  | Raise UnicodeEncodeError =>
      (encode board_id = None \/ encode_changes changes = None) /\
      journal (snd (SqliteBoardRecordStorage.update board_id changes c)) =
        Some (boards c) /\
      boards (snd (SqliteBoardRecordStorage.update board_id changes c)) =
        match BoardChanges.board_name changes with
        | Some name =>
            match encode name, encode board_id with
            | Some name_text, Some text =>
                UPDATE_boards (set_board_name name_text) text (clock c) (boards c)
            | _, _ => boards c
            end
        | None => boards c
        end
  | Raise _ => False
  end.
Proof.
  unfold idle. intros Hidle.
  destruct c as [b j cu cl fs ex]. simpl in Hidle. subst j.
  destruct changes as [[n|] [v|]]; unfold encode_changes, is_empty_patch;
    cbn [BoardChanges.board_name BoardChanges.cover_image_name];
    destruct (encode board_id) as [text|] eqn:Eid;
    try destruct (encode n) as [n'|] eqn:En;
    try destruct (encode v) as [v'|] eqn:Ev;
    unfold_method; rewrite ?Eid, ?En, ?Ev; simpl;
    repeat (next_fault; rewrite ?Eid, ?En, ?Ev; simpl);
    unfold apply_changes; simpl;
    try (repeat split; auto; congruence);
    try (left; split; reflexivity);
    try (right; do 2 eexists; repeat split; reflexivity).
Qed.

Lemma update_all_or_nothing_witness :
  let c := at_time noon_5_200 [] one_board in
  let changes := BoardChanges.mk (Some (str "Seascapes")) (Some lone_surrogate) in
  fst (SqliteBoardRecordStorage.update (str a_uuid) changes c) = Raise UnicodeEncodeError /\
  journal (snd (SqliteBoardRecordStorage.update (str a_uuid) changes c)) =
    Some (boards c) /\
  lookup a_uuid (boards (snd (SqliteBoardRecordStorage.update (str a_uuid) changes c))) =
    Some (Row.mk a_uuid "Seascapes" None
                 "2023-06-14 12:00:00.500" "2023-06-14 12:00:05" None).
Proof.
  intros c changes.
  pose proof (update_all_or_nothing (str a_uuid) changes c eq_refl) as H.
  assert (fst (SqliteBoardRecordStorage.update (str a_uuid) changes c) =
          Raise UnicodeEncodeError) as Hraise by reflexivity.
  rewrite Hraise in H. destruct H as [_ [Hopen Hboards]].
  split; [reflexivity|]. split; [exact Hopen|].
  rewrite Hboards. reflexivity.
Defined.

(** X8.  For a stored board and any patch, [update] followed by [get]
    returns the board with each field of the patch that is not [None]
    written and the other one kept, [board_id] and [created_at] as before,
    and [updated_at] set to [current_timestamp] unless the patch is
    empty. *)
Theorem get_after_update board_id changes c before :
  no_fault c ->
  fst (get board_id c) = Return before ->
  exists after,
    fst (get board_id (snd (update board_id changes c))) = Return after /\
    BoardRecord.board_id after = BoardRecord.board_id before /\
    BoardRecord.created_at after = BoardRecord.created_at before /\
    BoardRecord.board_name after =
      match BoardChanges.board_name changes with
      | Some s => s
      | None => BoardRecord.board_name before
      end /\
    BoardRecord.cover_image_name after =
      match BoardChanges.cover_image_name changes with
      | Some s => Some s
      | None => BoardRecord.cover_image_name before
      end /\
    BoardRecord.updated_at after =
      if is_empty_patch changes then BoardRecord.updated_at before
      else current_timestamp (clock c).
Proof.
  intros Hio Hget.
  destruct (update_ok board_id changes c Hio) as [_ [Hb Hio']].
  rewrite get_outcome in Hget. rewrite Hio in Hget.
  destruct (lookup board_id (boards c)) as [r|] eqn:Hrow; [|discriminate].
  injection Hget as <-.
  assert (has_board_id board_id r = true) as Hid by (apply (find_some _ _ Hrow)).
  exists (BoardRecord_of_row (patched changes (clock c) r)). split.
  - rewrite get_outcome, Hio', Hb, lookup_apply_changes, Hrow. simpl. now rewrite Hid.
  - unfold patched, is_empty_patch.
    destruct (BoardChanges.board_name changes), (BoardChanges.cover_image_name changes);
      simpl; auto.
Qed.

Lemma get_after_update_witness :
  exists after,
    fst (get a_uuid
             (snd (update a_uuid (BoardChanges.mk None (Some "img-1.png"))
                          (at_time noon_5_200 [] one_board)))) = Return after /\
    BoardRecord.board_id after = a_uuid /\
    BoardRecord.created_at after = "2023-06-14 12:00:00.500" /\
    BoardRecord.board_name after = "Landscapes" /\
    BoardRecord.cover_image_name after = Some "img-1.png" /\
    BoardRecord.updated_at after = "2023-06-14 12:00:05".
Proof.
  apply (get_after_update a_uuid (BoardChanges.mk None (Some "img-1.png"))
           (at_time noon_5_200 [] one_board)
           (BoardRecord.mk a_uuid "Landscapes" "2023-06-14 12:00:00.500"
                           "2023-06-14 12:00:00.500" None)); reflexivity.
Defined.

(** X9.  Whatever the patch and whatever the database does, [update]
    leaves every board with another identifier exactly as it was,
    [updated_at] included. *)
Theorem update_leaves_other_boards board_id changes key c :
  idle c ->
  key <> board_id ->
  lookup key (boards (snd (update board_id changes c))) = lookup key (boards c).
Proof.
  intros Hidle Hkey.
  destruct (update_frame board_id changes c Hidle) as [_ [_ [Hb|Hb]]];
    rewrite Hb; [reflexivity|].
  rewrite lookup_apply_changes.
  destruct (lookup key (boards c)) as [r|] eqn:Hrow; [|reflexivity]. simpl.
  destruct (has_board_id board_id r) eqn:E; [|reflexivity].
  apply has_board_id_eq in E. apply lookup_has_board_id in Hrow. congruence.
Qed.

Lemma update_leaves_other_boards_witness :
  let c := at_time noon_5_800 [] (snd (save another_uuid "Portraits" one_board)) in
  lookup a_uuid (boards (snd (update another_uuid
                                     (BoardChanges.mk (Some "X") (Some "img-2.png")) c))) =
  lookup a_uuid (boards c).
Proof.
  intros c.
  apply (update_leaves_other_boards another_uuid
           (BoardChanges.mk (Some "X") (Some "img-2.png")) a_uuid c);
    [reflexivity | discriminate].
Defined.

(** X10.  Through any run of [update] calls the table keeps the same rows
    in the same order, each with its [board_id] and [created_at]: [update]
    never adds or removes a board and never rewrites those two columns. *)
Theorem updates_keep_identity calls c :
  idle c ->
  map identity (boards (updates calls c)) = map identity (boards c).
Proof.
  revert c. induction calls as [|[[[now io] b] changes] calls IH];
    intros c Hidle; simpl; [reflexivity|].
  destruct (update_frame b changes (at_time now io c) Hidle) as [Hi [_ Hb]].
  rewrite (IH _ Hi).
  destruct Hb as [Hb|Hb]; rewrite Hb; simpl; [reflexivity|].
  apply identity_apply_changes.
Qed.

Lemma updates_keep_identity_witness :
  map identity
      (boards (updates [(noon_5_200, [], a_uuid, BoardChanges.mk (Some "Seascapes") None);
                        (noon_5_800, [true], a_uuid, BoardChanges.mk None (Some "i.png"));
                        (noon_5_800, [], another_uuid, BoardChanges.mk (Some "X") None)]
                       one_board)) =
  [(a_uuid, "2023-06-14 12:00:00.500")].
Proof.
  apply (updates_keep_identity
           [(noon_5_200, [], a_uuid, BoardChanges.mk (Some "Seascapes") None);
            (noon_5_800, [true], a_uuid, BoardChanges.mk None (Some "i.png"));
            (noon_5_800, [], another_uuid, BoardChanges.mk (Some "X") None)]
           one_board).
  reflexivity.
Defined.

(** ** Invariants of the store *)

(** X11.  With [str] arguments that are text, every path of every method
    ends in a commit or a rollback: after any history of such calls, with
    any database faults, no transaction is left open.  A [str] that UTF-8
    cannot encode is another matter: a [save] with such a name raises
    [UnicodeEncodeError] past the handler and leaves open the transaction
    begun for its INSERT. *)
Theorem transactions_closed_unless_unencodable :
  (forall calls file t0, idle (history calls (__init__ file t0))) /\
  (forall uuid4 (board_name : pystr) c,
     idle c ->
     encode board_name = None ->
     fst (SqliteBoardRecordStorage.save uuid4 board_name c) = Raise UnicodeEncodeError /\
     journal (snd (SqliteBoardRecordStorage.save uuid4 board_name c)) = Some (boards c)).
Proof.
  split.
  - intros calls file t0.
    destruct (history_ids calls (__init__ file t0) (ids file)) as [Hidle _];
      [reflexivity | apply incl_refl | assumption].
  - unfold idle. intros uuid4 board_name c Hidle Henc.
    destruct c as [b j cu cl fs ex]. simpl in Hidle. subst j.
    unfold_method. rewrite Henc. simpl. auto.
Qed.

Lemma transactions_closed_unless_unencodable_witness :
  idle (history [Save a_uuid "Landscapes"; Env noon_5_200 [false; true];
                 Update a_uuid (BoardChanges.mk (Some "X") (Some "img-1.png"));
                 Delete a_uuid; GetMany 0 (2 ^ 63)]
                (__init__ [] noon_0_500)) /\
  fst (SqliteBoardRecordStorage.save another_uuid lone_surrogate one_board) =
    Raise UnicodeEncodeError /\
  journal (snd (SqliteBoardRecordStorage.save another_uuid lone_surrogate one_board)) =
    Some (boards one_board).
Proof.
  destruct transactions_closed_unless_unencodable as [Hclosed Hopen].
  split.
  - apply Hclosed.
  - apply (Hopen another_uuid lone_surrogate one_board); reflexivity.
Defined.

Lemma perform_unique_ids k c :
  idle c -> NoDup (ids (boards c)) ->
  idle (perform k c) /\ NoDup (ids (boards (perform k c))).
Proof.
  intros Hidle Hnd. destruct k as [now io|u n|b|b ch|b|o l]; simpl.
  - split; assumption.
  - destruct (save_frame u n c Hidle) as [Hi [_ [Hb|Hb]]]; split; auto; rewrite Hb; auto.
    now apply NoDup_ids_INSERT.
  - destruct (get_frame b c Hidle) as [Hi [_ Hb]]. rewrite Hb. auto.
  - destruct (update_frame b ch c Hidle) as [Hi [_ [Hb|Hb]]]; split; auto; rewrite Hb; auto.
    now rewrite ids_apply_changes.
  - destruct (delete_frame b c Hidle) as [Hi [_ [Hb|Hb]]]; split; auto; rewrite Hb; auto.
    now apply NoDup_ids_DELETE.
  - destruct (get_many_frame o l c Hidle) as [Hi [_ Hb]]. rewrite Hb. auto.
Qed.

(** X12.  [board_id] stays a key: starting from a file without duplicate
    identifiers, no history of calls, whatever [uuid4] draws and whatever
    fails, leaves two rows with the same [board_id]. *)
Theorem history_keeps_ids_unique calls file t0 :
  NoDup (ids file) ->
  NoDup (ids (boards (history calls (__init__ file t0)))).
Proof.
  intros Hnd.
  assert (forall c, idle c -> NoDup (ids (boards c)) ->
                    NoDup (ids (boards (history calls c)))) as Hall.
  { induction calls as [|k calls IH]; intros c Hidle Hc; simpl; [assumption|].
    destruct (perform_unique_ids k c Hidle Hc) as [Hi Hn]. now apply IH. }
  apply Hall; [reflexivity | assumption].
Qed.

Lemma history_keeps_ids_unique_witness :
  NoDup (ids (boards (history [Save a_uuid "Landscapes"; Save a_uuid "Portraits";
                               Env noon_5_200 [true];
                               Save another_uuid "Sketches";
                               Save another_uuid "Sketches"]
                              (__init__ [] noon_0_500)))).
Proof.
  apply (history_keeps_ids_unique
           [Save a_uuid "Landscapes"; Save a_uuid "Portraits";
            Env noon_5_200 [true];
            Save another_uuid "Sketches";
            Save another_uuid "Sketches"] [] noon_0_500).
  constructor.
Defined.

(** ** Reading *)

(** X13.  [get] and [get_many] only read: for all arguments and all
    database faults the table after the call is the table before it. *)
Theorem reads_do_not_write board_id offset limit c :
  idle c ->
  boards (snd (get board_id c)) = boards c /\
  boards (snd (get_many offset limit c)) = boards c.
Proof.
  intros Hidle. split.
  - now destruct (get_frame board_id c Hidle) as [_ [_ Hb]].
  - now destruct (get_many_frame offset limit c Hidle) as [_ [_ Hb]].
Qed.

Lemma reads_do_not_write_witness :
  boards (snd (get another_uuid (at_time noon_5_200 [true] one_board))) =
    boards one_board /\
  boards (snd (get_many 0 (2 ^ 63) (at_time noon_5_200 [true] one_board))) =
    boards one_board.
Proof.
  apply (reads_do_not_write another_uuid 0 (2 ^ 63)
           (at_time noon_5_200 [true] one_board)).
  reflexivity.
Defined.

(** X14.  [get_many] wraps nothing: when it raises, the exception is the
    database's own error or the [OverflowError] of an argument out of
    range, never one of the [BoardRecord...Exception] classes. *)
Theorem get_many_raises_raw_error offset limit c e :
  fst (get_many offset limit c) = Raise e ->
  e = Sqlite3Error OperationalError \/ e = OverflowError.
Proof.
  destruct c as [b j cu cl fs ex].
  unfold_method. unfold bind_parameters. simpl.
  destruct (int64 limit); simpl; [|intros H; inversion H; auto].
  destruct (int64 offset); simpl; [|intros H; inversion H; auto].
  destruct fs as [|[|] fs]; simpl;
    try rewrite mapM_records by reflexivity; simpl;
    try (destruct fs as [|[|] fs]; simpl);
    try destruct j; simpl; intros H; inversion H; auto.
Qed.

Lemma get_many_raises_raw_error_witness :
  Sqlite3Error OperationalError = Sqlite3Error OperationalError \/
  Sqlite3Error OperationalError = OverflowError.
Proof.
  apply (get_many_raises_raw_error 0 10 (at_time noon_5_200 [false; true] one_board)).
  reflexivity.
Defined.

(** ** Pages *)

Lemma int64_of_range z : (- 2 ^ 63 <= z < 2 ^ 63)%Z -> int64 z = true.
Proof.
  intros Hz. unfold int64. apply andb_true_iff.
  rewrite Z.leb_le, Z.ltb_lt. lia.
Qed.

(** X15.  On an unchanged table two pages that follow each other make up
    the one larger page: the items of [get_many(offset, n)] followed by
    those of [get_many(offset + n, m)] are the items of
    [get_many(offset, n + m)]. *)
Theorem get_many_consecutive_pages c offset n m :
  no_fault c ->
  (0 <= offset)%Z -> (0 <= n)%Z -> (0 <= m)%Z ->
  (offset + n + m < 2 ^ 63)%Z ->
  exists p1 c1 p2 c2 p c3,
    get_many offset n c = (Return p1, c1) /\
    get_many (offset + n) m c1 = (Return p2, c2) /\
    get_many offset (n + m) c = (Return p, c3) /\
    OffsetPaginatedResults.items p1 ++ OffsetPaginatedResults.items p2 =
    OffsetPaginatedResults.items p.
Proof.
  intros Hio Hoff Hn Hm Hmax.
  destruct (get_many_ok offset n c Hio) as [c1 [Hrun1 [Hb1 [Hio1 _]]]];
    try (apply int64_of_range; lia).
  destruct (get_many_ok (offset + n) m c1 Hio1) as [c2 [Hrun2 _]];
    try (apply int64_of_range; lia).
  destruct (get_many_ok offset (n + m) c Hio) as [c3 [Hrun3 _]];
    try (apply int64_of_range; lia).
  rewrite Hb1 in Hrun2.
  do 6 eexists. split; [exact Hrun1|]. split; [exact Hrun2|]. split; [exact Hrun3|].
  cbn [OffsetPaginatedResults.items]. unfold LIMIT_OFFSET.
  destruct (Z.ltb_spec n 0), (Z.ltb_spec m 0), (Z.ltb_spec (n + m) 0); try lia.
  rewrite <- map_app. f_equal.
  rewrite !Z2Nat.inj_add by lia.
  rewrite (Nat.add_comm (Z.to_nat offset) (Z.to_nat n)), <- skipn_skipn.
  apply firstn_then_next.
Qed.

Lemma get_many_consecutive_pages_witness :
  exists p1 c1 p2 c2 p c3,
    get_many 2 5 fifteen_boards = (Return p1, c1) /\
    get_many (2 + 5) 6 c1 = (Return p2, c2) /\
    get_many 2 (5 + 6) fifteen_boards = (Return p, c3) /\
    OffsetPaginatedResults.items p1 ++ OffsetPaginatedResults.items p2 =
    OffsetPaginatedResults.items p.
Proof.
  apply (get_many_consecutive_pages fifteen_boards 2 5 6); [reflexivity | lia ..].
Defined.

(** X16.  Nothing checks the sign of [limit] and [offset], and SQLite
    reads a negative LIMIT as no limit and a negative OFFSET as none: with
    a negative limit [get_many] returns every row from the offset on. *)
Theorem get_many_negative_limit c offset limit :
  no_fault c ->
  (- 2 ^ 63 <= offset < 2 ^ 63)%Z ->
  (- 2 ^ 63 <= limit < 0)%Z ->
  exists page c',
    get_many offset limit c = (Return page, c') /\
    OffsetPaginatedResults.items page =
      map BoardRecord_of_row
          (skipn (Z.to_nat (Z.max 0 offset)) (ORDER_BY_updated_at_DESC (boards c))) /\
    OffsetPaginatedResults.limit page = limit /\
    OffsetPaginatedResults.total page = Z.of_nat (List.length (boards c)).
Proof.
  intros Hio Hoff Hlim.
  destruct (get_many_ok offset limit c Hio) as [c' [Hrun _]];
    try (apply int64_of_range; lia).
  do 2 eexists. split; [exact Hrun|].
  cbn [OffsetPaginatedResults.items OffsetPaginatedResults.limit
       OffsetPaginatedResults.total].
  repeat split. unfold LIMIT_OFFSET.
  destruct (Z.ltb_spec limit 0); [|lia].
  do 2 f_equal. lia.
Qed.

Lemma get_many_negative_limit_witness :
  exists page c',
    get_many (-3) (-1) fifteen_boards = (Return page, c') /\
    OffsetPaginatedResults.items page =
      map BoardRecord_of_row
          (skipn (Z.to_nat (Z.max 0 (-3)))
                 (ORDER_BY_updated_at_DESC (boards fifteen_boards))) /\
    OffsetPaginatedResults.limit page = (-1)%Z /\
    OffsetPaginatedResults.total page = Z.of_nat (List.length (boards fifteen_boards)).
Proof.
  apply (get_many_negative_limit fifteen_boards (-3) (-1)); [reflexivity | lia | lia].
Defined.

(** X17.  An offset at or past the last row is no error: the page has no
    items and [total] still counts every row. *)
Theorem get_many_offset_past_end c offset limit :
  no_fault c ->
  (Z.of_nat (List.length (boards c)) <= offset < 2 ^ 63)%Z ->
  (- 2 ^ 63 <= limit < 2 ^ 63)%Z ->
  exists c',
    get_many offset limit c =
    (Return (OffsetPaginatedResults.mk [] offset limit
                                       (Z.of_nat (List.length (boards c)))), c').
Proof.
  intros Hio Hoff Hlim.
  destruct (get_many_ok offset limit c Hio) as [c' [Hrun _]];
    try (apply int64_of_range; lia).
  exists c'. rewrite Hrun. do 2 f_equal.
  unfold LIMIT_OFFSET.
  rewrite skipn_all2 by (rewrite ORDER_BY_length; lia).
  destruct (limit <? 0)%Z; [reflexivity | now rewrite firstn_nil].
Qed.

Lemma get_many_offset_past_end_witness :
  exists c',
    get_many 15 10 fifteen_boards =
    (Return (OffsetPaginatedResults.mk
               [] 15 10 (Z.of_nat (List.length (boards fifteen_boards)))), c').
Proof.
  apply (get_many_offset_past_end fifteen_boards 15 10);
    [reflexivity | vm_compute; split; [discriminate | reflexivity] | lia].
Defined.

(** X18.  Saving a board whose identifier is new adds one to the total
    that [get_many] reports. *)
Theorem save_adds_one_to_total uuid4 board_name c offset limit :
  no_fault c ->
  lookup uuid4 (boards c) = None ->
  (- 2 ^ 63 <= offset < 2 ^ 63)%Z ->
  (- 2 ^ 63 <= limit < 2 ^ 63)%Z ->
  exists page c',
    get_many offset limit (snd (save uuid4 board_name c)) = (Return page, c') /\
    OffsetPaginatedResults.total page = (Z.of_nat (List.length (boards c)) + 1)%Z.
Proof.
  intros Hio Hnone Hoff Hlim.
  destruct (save_ok uuid4 board_name c Hio) as [_ [Hb Hio']].
  destruct (get_many_ok offset limit _ Hio') as [c' [Hrun _]];
    try (apply int64_of_range; lia).
  do 2 eexists. split; [exact Hrun|].
  cbn [OffsetPaginatedResults.total]. rewrite Hb.
  unfold INSERT_OR_IGNORE, lookup in *.
  rewrite (find_none_existsb _ _ Hnone), length_app. simpl. lia.
Qed.

Lemma save_adds_one_to_total_witness :
  exists page c',
    get_many 0 10 (snd (save another_uuid "Portraits" one_board)) = (Return page, c') /\
    OffsetPaginatedResults.total page =
      (Z.of_nat (List.length (boards one_board)) + 1)%Z.
Proof.
  apply (save_adds_one_to_total another_uuid "Portraits" one_board 0 10);
    [reflexivity | reflexivity | lia | lia].
Defined.

(** ** The two timestamp formats side by side *)

Lemma compare_proper_prefix s a t : String.compare s (s ++ String a t) = Lt.
Proof.
  induction s as [|x s IH]; simpl; [reflexivity|].
  unfold Ascii.compare. now rewrite N.compare_refl.
Qed.

Lemma string_length_append (s t : string) :
  String.length (s ++ t) = (String.length s + String.length t)%nat.
Proof. induction s as [|x s IH]; simpl; auto. Qed.

Lemma date_time_length t : String.length (date_time t) = 19%nat.
Proof.
  unfold date_time. rewrite !string_length_append, !decimal_length. reflexivity.
Qed.

Lemma same_second_same_text t1 t2 :
  valid_instant t1 = true -> valid_instant t2 = true ->
  whole_second t1 = whole_second t2 ->
  date_time t1 = date_time t2.
Proof.
  intros H1 H2 Heq. apply String.compare_eq_iff.
  rewrite compare_date_time by assumption. now apply N.compare_eq_iff.
Qed.

Lemma get_after_update_row board_id changes c r :
  no_fault c ->
  lookup board_id (boards c) = Some r ->
  fst (get board_id (snd (update board_id changes c))) =
  Return (BoardRecord_of_row (patched changes (clock c) r)).
Proof.
  intros Hio Hrow.
  destruct (update_ok board_id changes c Hio) as [_ [Hb Hio']].
  assert (has_board_id board_id r = true) as Hid by (apply (find_some _ _ Hrow)).
  rewrite get_outcome, Hio', Hb, lookup_apply_changes, Hrow. simpl. now rewrite Hid.
Qed.

(** X19.  A board saved at [t1] and then updated once, with a patch that
    is not empty, at [t2] has [created_at] in the format with
    milliseconds and [updated_at] in the format without.  When [t2] is in
    a later second than [t1], [created_at] sorts before [updated_at];
    when both fall in the same second, [updated_at] sorts before
    [created_at]. *)
Theorem created_at_against_updated_at uuid4 board_name changes t1 t2 c :
  valid_instant t1 = true -> valid_instant t2 = true ->
  lookup uuid4 (boards c) = None ->
  is_empty_patch changes = false ->
  exists r,
    fst (get uuid4
             (snd (update uuid4 changes
                          (at_time t2 [] (snd (save uuid4 board_name (at_time t1 [] c)))))))
      = Return r /\
    BoardRecord.created_at r = STRFTIME_f_NOW t1 /\
    BoardRecord.updated_at r = current_timestamp t2 /\
    ((whole_second t1 < whole_second t2)%N ->
     ts_lt (BoardRecord.created_at r) (BoardRecord.updated_at r) = true) /\
    (whole_second t1 = whole_second t2 ->
     ts_lt (BoardRecord.updated_at r) (BoardRecord.created_at r) = true).
Proof.
  intros Hv1 Hv2 Hnone Hpatch.
  destruct (save_ok uuid4 board_name (at_time t1 [] c)) as [_ [Hb Hio]]; [reflexivity|].
  set (c1 := snd (save uuid4 board_name (at_time t1 [] c))) in *.
  assert (lookup uuid4 (boards (at_time t2 [] c1)) =
          Some (Row.mk uuid4 board_name None (STRFTIME_f_NOW t1) (STRFTIME_f_NOW t1) None))
    as Hrow.
  { simpl. rewrite Hb. simpl. now apply lookup_INSERT_fresh. }
  eexists. split.
  - apply get_after_update_row; [reflexivity | exact Hrow].
  - simpl clock.
    assert (forall r, BoardRecord.created_at (BoardRecord_of_row (patched changes t2 r))
                      = Row.created_at r) as Hcreated.
    { intros r. unfold patched.
      destruct (BoardChanges.board_name changes), (BoardChanges.cover_image_name changes);
        reflexivity. }
    assert (forall r, BoardRecord.updated_at (BoardRecord_of_row (patched changes t2 r))
                      = current_timestamp t2) as Hupdated.
    { intros r. unfold patched, is_empty_patch in *.
      destruct (BoardChanges.board_name changes), (BoardChanges.cover_image_name changes);
        try reflexivity. discriminate. }
    rewrite Hcreated, Hupdated. cbn [Row.created_at].
    repeat split; unfold ts_lt, String.ltb, STRFTIME_f_NOW, current_timestamp.
    + intros Hlt. rewrite <- (append_empty (date_time t2)).
      rewrite compare_append by now rewrite !date_time_length.
      rewrite compare_date_time by assumption.
      apply N.compare_lt_iff in Hlt. now rewrite Hlt.
    + intros Heq. rewrite (same_second_same_text t1 t2) by assumption.
      change ("." ++ decimal 3 (millis t1))%string
        with (String "." (decimal 3 (millis t1))).
      now rewrite compare_proper_prefix.
Qed.

Lemma created_at_against_updated_at_witness :
  exists r,
    fst (get another_uuid
             (snd (update another_uuid (BoardChanges.mk None (Some "img-1.png"))
                          (at_time noon_5_800 []
                                   (snd (save another_uuid "Portraits"
                                              (at_time noon_5_200 [] one_board)))))))
      = Return r /\
    BoardRecord.created_at r = "2023-06-14 12:00:05.200" /\
    BoardRecord.updated_at r = "2023-06-14 12:00:05" /\
    ts_lt (BoardRecord.updated_at r) (BoardRecord.created_at r) = true.
Proof.
  destruct (created_at_against_updated_at another_uuid "Portraits"
              (BoardChanges.mk None (Some "img-1.png")) noon_5_200 noon_5_800 one_board)
    as [r [Hget [Hcreated [Hupdated [_ Hsame]]]]]; try reflexivity.
  exists r. repeat split; try assumption.
  apply Hsame. reflexivity.
Defined.

(** ** More on delete and on where boards come from *)

(** X20.  What [delete] leaves behind, by outcome.  When it returns, the
    row is gone from the table.  When it raises
    [BoardRecordDeleteException], the table is as before the call.  The
    only other exception is [UnicodeEncodeError], for a one-character
    identifier that UTF-8 cannot encode: the table is unchanged and the
    transaction begun for the DELETE stays open. *)
Theorem delete_all_or_nothing (board_id : pystr) c :
  idle c ->
  match fst (SqliteBoardRecordStorage.delete board_id c) with
  | Return _ =>
      exists text,
        encode board_id = Some text /\
        idle (snd (SqliteBoardRecordStorage.delete board_id c)) /\
        boards (snd (SqliteBoardRecordStorage.delete board_id c)) = DELETE text (boards c)
  | Raise (BoardRecordDeleteException cause) =>
      cause <> None /\
      idle (snd (SqliteBoardRecordStorage.delete board_id c)) /\
      boards (snd (SqliteBoardRecordStorage.delete board_id c)) = boards c
  | Raise UnicodeEncodeError =>
      encode board_id = None /\
      journal (snd (SqliteBoardRecordStorage.delete board_id c)) = Some (boards c) /\
      boards (snd (SqliteBoardRecordStorage.delete board_id c)) = boards c
  | Raise _ => False
  end.
Proof.
  unfold idle. intros Hidle.
  destruct c as [b j cu cl fs ex]. simpl in Hidle. subst j.
  destruct board_id as [|ch [|ch' rest]]; unfold_method;
    try (repeat split; auto; congruence).
  destruct (encode [ch]) as [text|] eqn:E; simpl;
    repeat next_fault;
    try (repeat split; auto; congruence);
    eexists; repeat split; reflexivity.
Qed.

Lemma delete_all_or_nothing_witness :
  let c := at_time noon_5_200 [false; true] (snd (save "7" "Sketches" one_board)) in
  (BoardRecordDeleteException (Some OperationalError) <> BoardRecordDeleteException None /\
   idle (snd (SqliteBoardRecordStorage.delete (str "7") c)) /\
   boards (snd (SqliteBoardRecordStorage.delete (str "7") c)) = boards c) /\
  journal (snd (SqliteBoardRecordStorage.delete lone_surrogate one_board)) =
    Some (boards one_board).
Proof.
  intros c. split.
  - pose proof (delete_all_or_nothing (str "7") c eq_refl) as H.
    assert (fst (SqliteBoardRecordStorage.delete (str "7") c) =
            Raise (BoardRecordDeleteException (Some OperationalError))) as Hraise
      by reflexivity.
    rewrite Hraise in H. destruct H as [_ [Hidle Hboards]].
    split; [discriminate|]. split; assumption.
  - pose proof (delete_all_or_nothing lone_surrogate one_board eq_refl) as H.
    assert (fst (SqliteBoardRecordStorage.delete lone_surrogate one_board) =
            Raise UnicodeEncodeError) as Hraise by reflexivity.
    rewrite Hraise in H. destruct H as [_ [Hopen _]]. exact Hopen.
Defined.

(** X21.  Only [save] creates boards: after any history of calls on a new
    store, every [board_id] in the table is one that [uuid4] drew for a
    [save] of that history. *)
Theorem boards_come_from_save calls t0 :
  incl (ids (boards (history calls (__init__ [] t0)))) (generated calls).
Proof.
  destruct (history_ids calls (__init__ [] t0) []) as [_ Hids];
    [reflexivity | apply incl_refl |].
  now rewrite app_nil_r in Hids.
Qed.
